(** * Site-settings pipeline of SK-Web-V3

    A shallow embedding of
    - [src/lib/settings.ts]: the grouped-settings row parser and the
      cached, request-deduplicating loader;
    - [src/components/Analytics.tsx] and [src/components/SEOInjector.tsx]:
      the effects that attach script and markup nodes to the document, and
      the head tags the SEO injector declares;
    - [src/lib/context/SiteSettingsContext.tsx]: the provider that loads
      the settings for the components.

    JavaScript values are modelled as they exist at run time: a settings
    group is an object (a finite map from property names to JSON values),
    an optional row field is an [option], an exception is an explicit
    abrupt completion.  The two platform services the code calls,
    [JSON.parse] and the HTML fragment parser behind [innerHTML], are
    parameters of the development. *)

From stdpp Require Import gmap strings list fin_maps pretty.
From Stdlib Require Import ZArith Ascii Lia.

Set Warnings "-register-all".

(* ===================================================================== *)
(** * JavaScript values and completions *)
(* ===================================================================== *)

(** The values [JSON.parse] can produce.  A number keeps its literal: the
    code never computes with a parsed number. *)
Inductive json : Type :=
  | JNull
  | JBool (b : bool)
  | JNum (lit : string)
  | JStr (s : string)
  | JArr (items : list json)
  | JObj (props : gmap string json).

(** A plain object is a [gmap string json]: its own enumerable properties
    by name. *)

Inductive js_error : Type :=
  | SyntaxError
  | OtherError (msg : string).

(** Outcome of evaluating a piece of code that may throw. *)
Inductive completion (A : Type) : Type :=
  | Normal (a : A)
  | Throw (e : js_error).
Arguments Normal {A} a.
Arguments Throw {A} e.

#[global] Instance completion_ret : MRet completion := fun A a => Normal a.
#[global] Instance completion_bind : MBind completion := fun A B f c =>
  match c with
  | Normal a => f a
  | Throw e => Throw e
  end.

(** [try { body } catch { handler }] *)
Definition try_catch {A} (body : completion A) (handler : js_error -> completion A)
  : completion A :=
  match body with
  | Normal a => Normal a
  | Throw e => handler e
  end.

(** [for (const x of l) { s = body(s, x) }], stopping at the first throw. *)
Fixpoint for_of {A S} (body : S -> A -> completion S) (l : list A) (s : S)
  : completion S :=
  match l with
  | [] => Normal s
  | x :: l' => s' ← body s x; for_of body l' s'
  end.

(** Truthiness of an optional string: [undefined], [null] and [''] are falsy. *)
Definition truthy (o : option string) : bool :=
  match o with
  | Some s => negb (String.eqb s "")
  | None => false
  end.

(** [o || d] on an optional string. *)
Definition or_else (o : option string) (d : string) : string :=
  match o with
  | Some s => if String.eqb s "" then d else s
  | None => d
  end.

(** [o || 0] on an optional number. *)
Definition or_zero (o : option Z) : Z :=
  match o with
  | Some n => if Z.eqb n 0 then 0%Z else n
  | None => 0%Z
  end.

(** Property names of array indices and string positions: ["0"], ["1"], ... *)
Definition index_props {A} (f : A -> json) (l : list A) : gmap string json :=
  list_to_map (imap (fun i x => (pretty i, f x)) l).

(** The own enumerable properties an object spread [{...v}] copies from [v]:
    the properties of an object, the elements of an array, the characters
    of a string (here the characters of the model's strings), nothing from
    [null], a boolean or a number. *)
Definition own_props (v : json) : gmap string json :=
  match v with
  | JObj props => props
  | JArr items => index_props (fun x => x) items
  | JStr s => index_props (fun c => JStr (String c EmptyString)) (String.list_ascii_of_string s)
  | JNull | JBool _ | JNum _ => ∅
  end.

(** [{ ...a, ...b }]: the properties of [b] win. *)
Definition spread (a : gmap string json) (b : json) : gmap string json :=
  own_props b ∪ a.

(* ===================================================================== *)
(** * src/lib/settings.ts: data model *)
(* ===================================================================== *)

(** A row of the [site_settings] table as the query returns it. *)
Module Row.
Record t : Type := mk {
  key : string;
  value : option string;
  setting_type : option string;
  injection_point : option string;
  id : option string;
  display_name : option string;
  sort_order : option Z
}.
End Row.

Module CustomScript.
Record t : Type := mk {
  id : string;
  key : string;
  display_name : string;
  value : string;
  setting_type : string;
  injection_point : string;
  sort_order : Z
}.
End CustomScript.

Record Scripts : Type := mkScripts {
  head_start : list CustomScript.t;
  head_end : list CustomScript.t;
  body_start : list CustomScript.t;
  body_end : list CustomScript.t
}.

Record AllSiteSettings : Type := mkSettings {
  seo : gmap string json;
  analytics : gmap string json;
  general : gmap string json;
  contact : gmap string json;
  social : gmap string json;
  scripts : Scripts
}.

Definition DEFAULT_SEO : gmap string json :=
  list_to_map
    [ ("meta_title", JStr "Supermal Karawaci");
      ("meta_description", JStr "Shopping Mall in Tangerang");
      ("meta_keywords", JStr "");
      ("og_title", JStr "");
      ("og_description", JStr "");
      ("og_image_url", JStr "");
      ("og_type", JStr "website");
      ("twitter_card", JStr "summary_large_image");
      ("twitter_site", JStr "");
      ("twitter_creator", JStr "");
      ("canonical_url", JStr "https://supermalkarawaci.co.id");
      ("robots", JStr "index, follow");
      ("google_site_verification", JStr "");
      ("bing_site_verification", JStr "") ].

Definition DEFAULT_ANALYTICS : gmap string json :=
  list_to_map
    [ ("google_analytics_id", JStr "");
      ("google_tag_manager_id", JStr "");
      ("meta_pixel_id", JStr "");
      ("tiktok_pixel_id", JStr "");
      ("hotjar_id", JStr "") ].

Definition DEFAULT_GENERAL : gmap string json :=
  list_to_map
    [ ("site_name", JStr "Supermal Karawaci");
      ("site_tagline", JStr "");
      ("site_description", JStr "");
      ("logo_url", JStr "");
      ("logo_dark_url", JStr "");
      ("favicon_url", JStr "");
      ("default_language", JStr "id");
      ("timezone", JStr "Asia/Jakarta") ].

Definition DEFAULT_CONTACT : gmap string json :=
  list_to_map
    [ ("address", JStr "");
      ("phone", JStr "");
      ("email", JStr "");
      ("whatsapp", JStr "");
      ("google_maps_embed", JStr "");
      ("latitude", JStr "");
      ("longitude", JStr "") ].

Definition DEFAULT_SOCIAL : gmap string json :=
  list_to_map
    [ ("facebook", JStr "");
      ("instagram", JStr "");
      ("twitter", JStr "");
      ("youtube", JStr "");
      ("tiktok", JStr "");
      ("linkedin", JStr "") ].

(** The bundle literal shared by [parseSettingsFromData] (its initial value)
    and [getDefaultSettings]. *)
Definition getDefaultSettings : AllSiteSettings :=
  {| seo := DEFAULT_SEO;
     analytics := DEFAULT_ANALYTICS;
     general := DEFAULT_GENERAL;
     contact := DEFAULT_CONTACT;
     social := DEFAULT_SOCIAL;
     scripts := {| head_start := []; head_end := []; body_start := []; body_end := [] |} |}.

(** Field assignments [settings.seo = v], ... *)
Definition set_seo (v : gmap string json) (s : AllSiteSettings) : AllSiteSettings :=
  mkSettings v (analytics s) (general s) (contact s) (social s) (scripts s).
Definition set_analytics (v : gmap string json) (s : AllSiteSettings) : AllSiteSettings :=
  mkSettings (seo s) v (general s) (contact s) (social s) (scripts s).
Definition set_general (v : gmap string json) (s : AllSiteSettings) : AllSiteSettings :=
  mkSettings (seo s) (analytics s) v (contact s) (social s) (scripts s).
Definition set_contact (v : gmap string json) (s : AllSiteSettings) : AllSiteSettings :=
  mkSettings (seo s) (analytics s) (general s) v (social s) (scripts s).
Definition set_social (v : gmap string json) (s : AllSiteSettings) : AllSiteSettings :=
  mkSettings (seo s) (analytics s) (general s) (contact s) v (scripts s).
Definition set_scripts (v : Scripts) (s : AllSiteSettings) : AllSiteSettings :=
  mkSettings (seo s) (analytics s) (general s) (contact s) (social s) v.

(** [settings.scripts.<point>.push(script)] for the four known points; any
    other injection point falls through the inner [switch]. *)
Definition push_script (point : string) (script : CustomScript.t) (sc : Scripts) : Scripts :=
  if String.eqb point "head_start" then
    mkScripts (head_start sc ++ [script]) (head_end sc) (body_start sc) (body_end sc)
  else if String.eqb point "head_end" then
    mkScripts (head_start sc) (head_end sc ++ [script]) (body_start sc) (body_end sc)
  else if String.eqb point "body_start" then
    mkScripts (head_start sc) (head_end sc) (body_start sc ++ [script]) (body_end sc)
  else if String.eqb point "body_end" then
    mkScripts (head_start sc) (head_end sc) (body_start sc) (body_end sc ++ [script])
  else sc.

(* ===================================================================== *)
(** * src/lib/settings.ts: the row parser *)
(* ===================================================================== *)

Section Parser.

(** [JSON.parse]: the parsed value, or a thrown [SyntaxError]. *)
Variable JSON_parse : string -> completion json.

Definition parseJsonValue (value : option string) (defaults : gmap string json)
  : completion (gmap string json) :=
  if negb (truthy value) then Normal defaults
  else
    try_catch
      (parsed ← JSON_parse (default "" value);
       Normal (spread defaults parsed))
      (fun _ => Normal defaults).

(** The object literal built for a custom-script row. *)
Definition script_of_row (row : Row.t) : CustomScript.t :=
  {| CustomScript.id := or_else (Row.id row) (Row.key row);
     CustomScript.key := Row.key row;
     CustomScript.display_name := or_else (Row.display_name row) (Row.key row);
     CustomScript.value := default "" (Row.value row);
     CustomScript.setting_type := default "" (Row.setting_type row);
     CustomScript.injection_point := default "" (Row.injection_point row);
     CustomScript.sort_order := or_zero (Row.sort_order row) |}.

(** Body of the [for (const row of data)] loop. *)
Definition parse_row (settings : AllSiteSettings) (row : Row.t)
  : completion AllSiteSettings :=
  let key := Row.key row in
  let value := Row.value row in
  if String.eqb key "settings_seo" then
    v ← parseJsonValue value DEFAULT_SEO; Normal (set_seo v settings)
  else if String.eqb key "settings_analytics" then
    v ← parseJsonValue value DEFAULT_ANALYTICS; Normal (set_analytics v settings)
  else if String.eqb key "settings_general" then
    v ← parseJsonValue value DEFAULT_GENERAL; Normal (set_general v settings)
  else if String.eqb key "settings_contact" then
    v ← parseJsonValue value DEFAULT_CONTACT; Normal (set_contact v settings)
  else if String.eqb key "settings_social" then
    v ← parseJsonValue value DEFAULT_SOCIAL; Normal (set_social v settings)
  else if negb (String.prefix "settings_" key)
          && truthy (Row.injection_point row)
          && truthy (Row.setting_type row)
          && truthy value then
    Normal (set_scripts
              (push_script (default "" (Row.injection_point row))
                           (script_of_row row) (scripts settings))
              settings)
  else Normal settings.

Definition parseSettingsFromData (data : list Row.t) : completion AllSiteSettings :=
  for_of parse_row data getDefaultSettings.

End Parser.

(* ===================================================================== *)
(** * src/lib/settings.ts: the cached, request-deduplicating loader *)
(* ===================================================================== *)

(** The loader is asynchronous.  Between two suspension points JavaScript
    runs to completion, so the module state changes in atomic events: a call
    of [fetchAllSiteSettings] (up to its [await]), the resumption of a
    request when its query settles, and [clearSettingsCache].  [Date.now()]
    is an input of each event.  Bundles are objects with identity, so the
    state keeps the bundles allocated so far and hands out references.  The
    query builder is taken to return its thenable without throwing, so a new
    request always reaches its [await] with the pending slot filled. *)

Definition CACHE_DURATION : Z := 5 * 60 * 1000.

(** Identity of a bundle object: its index among the allocated bundles. *)
Definition ref := nat.
(** Identity of a request promise: its index among the created promises. *)
Definition promise := nat.

Inductive promise_state : Type :=
  | Pending
  | Fulfilled (bundle : ref)
  | Rejected (e : js_error).

(** [{ data, timestamp }] *)
Record CacheEntry : Type := mkCache {
  data : ref;
  timestamp : Z
}.

(** The [{ data, error }] object the query resolves to. *)
Module Response.
Record t : Type := mk {
  data : option (list Row.t);
  error : option string
}.
End Response.

(** What the awaited query does: resolve to a response, or reject. *)
Inductive transport : Type :=
  | Replied (r : Response.t)
  | Failed (e : js_error).

Record Loader : Type := mkLoader {
  settingsCache : option CacheEntry;
  pendingRequest : option promise;
  (** bundles allocated so far *)
  objects : list AllSiteSettings;
  (** one entry per request created by the loader *)
  promises : list promise_state;
  (** network queries issued so far *)
  queries : nat
}.

Definition initial : Loader :=
  {| settingsCache := None; pendingRequest := None;
     objects := []; promises := []; queries := 0 |}.

Definition set_settingsCache (c : option CacheEntry) (s : Loader) : Loader :=
  mkLoader c (pendingRequest s) (objects s) (promises s) (queries s).
Definition set_pendingRequest (p : option promise) (s : Loader) : Loader :=
  mkLoader (settingsCache s) p (objects s) (promises s) (queries s).
Definition set_promises (ps : list promise_state) (s : Loader) : Loader :=
  mkLoader (settingsCache s) (pendingRequest s) (objects s) ps (queries s).

(** A new bundle object. *)
Definition alloc (b : AllSiteSettings) (s : Loader) : Loader * ref :=
  (mkLoader (settingsCache s) (pendingRequest s) (objects s ++ [b]) (promises s) (queries s),
   length (objects s)).

(** [settingsCache && Date.now() - settingsCache.timestamp < CACHE_DURATION] *)
Definition cache_hit (now : Z) (s : Loader) : option ref :=
  match settingsCache s with
  | Some c => if (now - timestamp c <? CACHE_DURATION)%Z then Some (data c) else None
  | None => None
  end.

(** What a caller of [fetchAllSiteSettings] holds: the cached bundle, or a
    promise that follows the shared request. *)
Inductive fetched : Type :=
  | Hit (bundle : ref)
  | Wait (p : promise).

(** [fetchAllSiteSettings], up to the [await] of the query.  A new request
    issues its query, is recorded as pending and fills the pending slot. *)
Definition fetchAllSiteSettings (now : Z) (s : Loader) : Loader * fetched :=
  match cache_hit now s with
  | Some d => (s, Hit d)
  | None =>
      match pendingRequest s with
      | Some p => (s, Wait p)
      | None =>
          let p := length (promises s) in
          (mkLoader (settingsCache s) (Some p) (objects s)
                    (promises s ++ [Pending]) (S (queries s)),
           Wait p)
      end
  end.

Section Loader.

Variable JSON_parse : string -> completion json.

(** The request's [try { ... } catch { ... } finally { ... }] after the
    query has settled with [out]. *)
Definition request_body (out : transport) (now : Z) (s : Loader)
  : Loader * completion ref :=
  let tried : Loader * completion ref :=
    match out with
    | Failed e => (s, Throw e)
    | Replied r =>
        match Response.error r with
        | Some _ =>
            let '(s1, d) := alloc getDefaultSettings s in (s1, Normal d)
        | None =>
            match parseSettingsFromData JSON_parse (default [] (Response.data r)) with
            | Throw e => (s, Throw e)
            | Normal settings =>
                let '(s1, d) := alloc settings s in
                (set_settingsCache (Some {| data := d; timestamp := now |}) s1,
                 Normal d)
            end
        end
    end in
  let caught : Loader * completion ref :=
    match tried with
    | (s1, Throw _) =>
        let '(s2, d) := alloc getDefaultSettings s1 in (s2, Normal d)
    | (s1, Normal d) => (s1, Normal d)
    end in
  (set_pendingRequest None (fst caught), snd caught).

(** The query of request [p] settles: the request runs to its end and its
    promise settles with the outcome. *)
Definition settle (p : promise) (out : transport) (now : Z) (s : Loader) : Loader :=
  match promises s !! p with
  | Some Pending =>
      let '(s1, c) := request_body out now s in
      set_promises
        (<[p := match c with
                | Normal d => Fulfilled d
                | Throw e => Rejected e
                end]> (promises s1))
        s1
  | _ => s
  end.

Definition clearSettingsCache (s : Loader) : Loader :=
  set_pendingRequest None (set_settingsCache None s).

(** [refreshSettings] of the context provider: clear, then load. *)
Definition refreshSettings (now : Z) (s : Loader) : Loader * fetched :=
  fetchAllSiteSettings now (clearSettingsCache s).

Inductive event : Type :=
  | Call (now : Z)
  | Settle (p : promise) (out : transport) (now : Z)
  | Clear.

Definition step (s : Loader) (e : event) : Loader :=
  match e with
  | Call now => fst (fetchAllSiteSettings now s)
  | Settle p out now => settle p out now s
  | Clear => clearSettingsCache s
  end.

Definition run (es : list event) (s : Loader) : Loader := foldl step s es.

(** States reachable from the initial one by events that satisfy [ok]. *)
Inductive reachable_by (ok : Loader -> event -> Prop) : Loader -> Prop :=
  | reach_initial : reachable_by ok initial
  | reach_step s e : reachable_by ok s -> ok s e -> reachable_by ok (step s e).

Definition reachable : Loader -> Prop := reachable_by (fun _ _ => True).

End Loader.

Definition is_pending (st : promise_state) : bool :=
  match st with
  | Pending => true
  | _ => false
  end.

(** Requests whose query has been issued and has not settled yet. *)
Definition outstanding (s : Loader) : nat :=
  length (List.filter is_pending (promises s)).

(** What the holder of [f] has received in state [s]: the bundle, once there
    is one. *)
Definition received (s : Loader) (f : fetched) : option ref :=
  match f with
  | Hit d => Some d
  | Wait p =>
      match promises s !! p with
      | Some (Fulfilled d) => Some d
      | _ => None
      end
  end.

(** [K] callers one after the other, at the given times. *)
Fixpoint callers (times : list Z) (s : Loader) : Loader * list fetched :=
  match times with
  | [] => (s, [])
  | now :: rest =>
      let '(s1, f) := fetchAllSiteSettings now s in
      let '(s2, fs) := callers rest s1 in
      (s2, f :: fs)
  end.

(** [clearSettingsCache] is never called while a request is outstanding. *)
Definition no_clear_in_flight (s : Loader) (e : event) : Prop :=
  e = Clear -> outstanding s = 0.

(** While the events [es] happen from state [s], [clearSettingsCache] is not
    called and no request that is in flight settles.  Calls of the loader,
    and answers for requests that have settled already, may happen. *)
Fixpoint undisturbed (JSON_parse : string -> completion json)
    (es : list event) (s : Loader) : bool :=
  match es with
  | [] => true
  | e :: rest =>
      match e with
      | Call _ => true
      | Settle q _ _ =>
          match promises s !! q with
          | Some Pending => false
          | _ => true
          end
      | Clear => false
      end
      && undisturbed JSON_parse rest (step JSON_parse s e)
  end.

(* ===================================================================== *)
(** * The document *)
(* ===================================================================== *)

Inductive node : Type :=
  | Element (tag : string) (attrs : list (string * string)) (children : list node)
  | Text (content : string)
  | Comment (content : string).

(** The document: the [html], [head] and [body] elements with their
    attributes, and the children of [head] and [body]. *)
Record document : Type := mkDocument {
  html_attrs : list (string * string);
  head_attrs : list (string * string);
  head : list node;
  body_attrs : list (string * string);
  body : list node
}.

Fixpoint getAttribute (name : string) (attrs : list (string * string)) : option string :=
  match attrs with
  | [] => None
  | (n, v) :: rest => if String.eqb n name then Some v else getAttribute name rest
  end.

Fixpoint setAttribute (name v : string) (attrs : list (string * string))
  : list (string * string) :=
  match attrs with
  | [] => [(name, v)]
  | (n, x) :: rest =>
      if String.eqb n name then (n, v) :: rest else (n, x) :: setAttribute name v rest
  end.

Definition attr_is (name v : string) (attrs : list (string * string)) : bool :=
  match getAttribute name attrs with
  | Some x => String.eqb x v
  | None => false
  end.

(** Some element of the subtree has attribute [name] equal to [v]. *)
Fixpoint node_has (name v : string) (n : node) : bool :=
  match n with
  | Element _ attrs children => attr_is name v attrs || existsb (node_has name v) children
  | Text _ | Comment _ => false
  end.

Definition document_has (name v : string) (d : document) : bool :=
  attr_is name v (html_attrs d)
  || attr_is name v (head_attrs d) || existsb (node_has name v) (head d)
  || attr_is name v (body_attrs d) || existsb (node_has name v) (body d).

(** [document.getElementById(id)] is not null. *)
Definition getElementById (id : string) (d : document) : bool :=
  document_has "id" id d.

(** Characters that end or escape a double-quoted CSS string: NUL, line
    feed, form feed, carriage return, the double quote and the backslash. *)
Definition css_string_char (c : ascii) : bool :=
  negb (existsb (Nat.eqb (nat_of_ascii c)) [0; 10; 12; 13; 34; 92]).

Definition selector_safe (key : string) : bool :=
  forallb css_string_char (String.list_ascii_of_string key).

(** [document.querySelector(`[name="${key}"]`)] is not null.  The selector
    text is built by splicing [key] between double quotes: for a key of plain
    string characters it is the attribute selector that tests equality with
    [key]; any other key is outside the model ([None]). *)
Definition querySelector_attr (name key : string) (d : document) : option bool :=
  if selector_safe key then Some (document_has name key d) else None.

(** Children after [el.innerHTML = s] on a [script] element: raw text. *)
Definition text_children (s : string) : list node :=
  if String.eqb s "" then [] else [Text s].

Definition appendChild_head (n : node) (d : document) : document :=
  mkDocument (html_attrs d) (head_attrs d) (head d ++ [n]) (body_attrs d) (body d).
Definition appendChild_body (n : node) (d : document) : document :=
  mkDocument (html_attrs d) (head_attrs d) (head d) (body_attrs d) (body d ++ [n]).
(** [document.body.insertBefore(n, document.body.firstChild)] *)
Definition insertBefore_firstChild_body (n : node) (d : document) : document :=
  mkDocument (html_attrs d) (head_attrs d) (head d) (body_attrs d) (n :: body d).

(** [l.forEach(x => f(x))] over a state, where [f] may leave the model. *)
Fixpoint forEach {A S} (f : A -> S -> option S) (l : list A) (s : S) : option S :=
  match l with
  | [] => Some s
  | x :: l' => s' ← f x s; forEach f l' s'
  end.

Definition is_element (n : node) : bool :=
  match n with
  | Element _ _ _ => true
  | _ => false
  end.

Definition nonempty (s : string) : bool := negb (String.eqb s "").

(* ===================================================================== *)
(** * src/components/Analytics.tsx *)
(* ===================================================================== *)

(** The consumer is typed against the [AnalyticsSettings] interface: five
    strings, the empty string meaning that the provider is off. *)
Record AnalyticsSettings : Type := mkAnalytics {
  google_analytics_id : string;
  google_tag_manager_id : string;
  meta_pixel_id : string;
  tiktok_pixel_id : string;
  hotjar_id : string
}.

(** [options?: { src?: string; async?: boolean }] *)
Record ScriptOptions : Type := mkOptions {
  src : option string;
  async : option bool
}.

(** The component's refs. *)
Record AnalyticsRefs : Type := mkRefs {
  injectedScriptsRef : list node;
  hasInjectedRef : bool
}.

(** Helper of the effect; the state is the document and [scriptsToCleanup]. *)
Definition injectScript (id content : string) (options : option ScriptOptions)
    (st : document * list node) : document * list node :=
  let '(doc, scriptsToCleanup) := st in
  if getElementById id doc then st
  else
    let script :=
      match options ≫= src with
      | Some url =>
          if nonempty url then
            Element "script"
              ([("id", id); ("src", url)]
                 ++ (if default false (options ≫= async) then [("async", "")] else []))
              []
          else Element "script" [("id", id)] (text_children content)
      | None => Element "script" [("id", id)] (text_children content)
      end in
    (appendChild_head script doc, scriptsToCleanup ++ [script]).

Section Analytics.

(** The inline code of a provider: [code id v] is the template literal
    injected under element id [id] with the provider identifier [v]
    spliced in.  The effect never inspects it. *)
Variable code : string -> string -> string.

Definition ga4 (gaId : string) (st : document * list node) : document * list node :=
  let st := injectScript "ga4-loader" ""
              (Some (mkOptions (Some ("https://www.googletagmanager.com/gtag/js?id=" +:+ gaId))
                               (Some true))) st in
  injectScript "ga4-init" (code "ga4-init" gaId) None st.

Definition gtm (gtmId : string) (st : document * list node) : document * list node :=
  let '(doc, cleanup) := injectScript "gtm-init" (code "gtm-init" gtmId) None st in
  if negb (getElementById "gtm-noscript" doc) then
    let iframe :=
      Element "iframe"
        [("src", "https://www.googletagmanager.com/ns.html?id=" +:+ gtmId);
         ("height", "0"); ("width", "0");
         ("style", "display: none; visibility: hidden;")] [] in
    let noscript := Element "noscript" [("id", "gtm-noscript")] [iframe] in
    (insertBefore_firstChild_body noscript doc, cleanup)
  else (doc, cleanup).

Definition meta_pixel (pixelId : string) (st : document * list node)
  : document * list node :=
  let '(doc, cleanup) := injectScript "meta-pixel" (code "meta-pixel" pixelId) None st in
  if negb (getElementById "meta-pixel-noscript" doc) then
    let img :=
      Element "img"
        [("height", "1"); ("width", "1"); ("style", "display: none;");
         ("src", "https://www.facebook.com/tr?id=" +:+ pixelId +:+ "&ev=PageView&noscript=1");
         ("alt", "")] [] in
    let noscript := Element "noscript" [("id", "meta-pixel-noscript")] [img] in
    (appendChild_body noscript doc, cleanup)
  else (doc, cleanup).

Definition tiktok (tiktokId : string) (st : document * list node)
  : document * list node :=
  injectScript "tiktok-pixel" (code "tiktok-pixel" tiktokId) None st.

Definition hotjar (hotjarId : string) (st : document * list node)
  : document * list node :=
  injectScript "hotjar" (code "hotjar" hotjarId) None st.

Definition when (s : string) (f : string -> document * list node -> document * list node)
    (st : document * list node) : document * list node :=
  if nonempty s then f s st else st.

(** The effect of the [Analytics] component. *)
Definition Analytics_effect (isLoading : bool) (analytics : option AnalyticsSettings)
    (refs : AnalyticsRefs) (doc : document) : AnalyticsRefs * document :=
  match analytics with
  | Some a =>
      if isLoading || hasInjectedRef refs then (refs, doc)
      else
        let st := (doc, []) in
        let st := when (google_analytics_id a) ga4 st in
        let st := when (google_tag_manager_id a) gtm st in
        let st := when (meta_pixel_id a) meta_pixel st in
        let st := when (tiktok_pixel_id a) tiktok st in
        let st := when (hotjar_id a) hotjar st in
        (mkRefs (snd st) true, fst st)
  | None => (refs, doc)
  end.

End Analytics.

(* ===================================================================== *)
(** * src/components/SEOInjector.tsx *)
(* ===================================================================== *)

Section SEOInjector.

(** The HTML fragment parser behind [div.innerHTML = s]. *)
Variable parseHTML : string -> list node.

Definition injectIntoBody (script : CustomScript.t) (prepend : bool)
    (st : document * list node) : option (document * list node) :=
  let '(doc, elementsToCleanup) := st in
  let place := if prepend then insertBefore_firstChild_body else appendChild_body in
  if negb (nonempty (CustomScript.value script)) then Some st
  else
    found ← querySelector_attr "data-seo-setting" (CustomScript.key script) doc;
    if (found : bool) then Some st
    else if String.eqb (CustomScript.setting_type script) "script" then
      let el :=
        Element "script" [("data-seo-setting", CustomScript.key script)]
                (text_children (CustomScript.value script)) in
      Some (place el doc, elementsToCleanup ++ [el])
    else if String.eqb (CustomScript.setting_type script) "custom_html" then
      let container :=
        Element "div"
          [("data-seo-setting", CustomScript.key script); ("style", "display: contents;")]
          (parseHTML (CustomScript.value script)) in
      Some (place container doc, elementsToCleanup ++ [container])
    else Some st.

(** The effect that injects the body scripts. *)
Definition body_effect (isLoading : bool) (scripts : option Scripts) (doc : document)
  : option (document * list node) :=
  match scripts with
  | Some sc =>
      if isLoading then Some (doc, [])
      else
        st ← forEach (fun script => injectIntoBody script true) (body_start sc) (doc, []);
        forEach (fun script => injectIntoBody script false) (body_end sc) st
  | None => Some (doc, [])
  end.

(** [child.setAttribute('data-head-setting', key)] where the child has it. *)
Definition mark_head (key : string) (n : node) : node :=
  match n with
  | Element tag attrs children =>
      Element tag (setAttribute "data-head-setting" key attrs) children
  | other => other
  end.

Definition injectIntoHead (script : CustomScript.t) (st : document * list node)
  : option (document * list node) :=
  let '(doc, headElements) := st in
  if negb (nonempty (CustomScript.value script)) then Some st
  else
    found ← querySelector_attr "data-head-setting" (CustomScript.key script) doc;
    if (found : bool) then Some st
    else if String.eqb (CustomScript.setting_type script) "meta_tag"
            || String.eqb (CustomScript.setting_type script) "custom_html" then
      let moved := map (mark_head (CustomScript.key script))
                       (parseHTML (CustomScript.value script)) in
      Some (mkDocument (html_attrs doc) (head_attrs doc) (head doc ++ moved)
                       (body_attrs doc) (body doc),
            headElements ++ List.filter is_element moved)
    else Some st.

(** The effect that injects the head markup. *)
Definition head_effect (isLoading : bool) (scripts : option Scripts) (doc : document)
  : option (document * list node) :=
  match scripts with
  | Some sc =>
      if isLoading then Some (doc, [])
      else
        st ← forEach injectIntoHead (head_start sc) (doc, []);
        forEach injectIntoHead (head_end sc) st
  | None => Some (doc, [])
  end.

End SEOInjector.

(* ===================================================================== *)
(** * A reference [JSON.parse] for running the parser on concrete rows *)
(* ===================================================================== *)

(** The results below hold for every [JSON_parse].  To evaluate the parser
    on concrete rows this section supplies one: a recursive-descent reader
    of the JSON grammar (objects, arrays, strings with the two-character
    escapes, numbers, [true], [false], [null]; a [\u] escape is not read).
    In an object a repeated name keeps its last value. *)
Module JsonRef.

Definition dquote : ascii := ascii_of_nat 34.
Definition backslash : ascii := ascii_of_nat 92.

Definition is_ws (c : ascii) : bool :=
  existsb (Nat.eqb (nat_of_ascii c)) [32; 9; 10; 13].

Definition is_digit (c : ascii) : bool :=
  (48 <=? nat_of_ascii c) && (nat_of_ascii c <=? 57).

Fixpoint skip_ws (cs : list ascii) : list ascii :=
  match cs with
  | c :: rest => if is_ws c then skip_ws rest else cs
  | [] => []
  end.

Definition unescape (c : ascii) : option ascii :=
  if Ascii.eqb c dquote then Some dquote
  else if Ascii.eqb c backslash then Some backslash
  else if Ascii.eqb c "/" then Some "/"%char
  else if Ascii.eqb c "b" then Some (ascii_of_nat 8)
  else if Ascii.eqb c "f" then Some (ascii_of_nat 12)
  else if Ascii.eqb c "n" then Some (ascii_of_nat 10)
  else if Ascii.eqb c "r" then Some (ascii_of_nat 13)
  else if Ascii.eqb c "t" then Some (ascii_of_nat 9)
  else None.

(** The characters of a string literal after its opening quote. *)
Fixpoint read_string (cs : list ascii) (acc : list ascii)
  : option (string * list ascii) :=
  match cs with
  | [] => None
  | c :: rest =>
      if Ascii.eqb c dquote then Some (String.string_of_list_ascii (rev acc), rest)
      else if Ascii.eqb c backslash then
        match rest with
        | e :: rest' =>
            match unescape e with
            | Some x => read_string rest' (x :: acc)
            | None => None
            end
        | [] => None
        end
      else if nat_of_ascii c <? 32 then None
      else read_string rest (c :: acc)
  end.

Fixpoint span_digits (cs : list ascii) : list ascii * list ascii :=
  match cs with
  | c :: rest =>
      if is_digit c then let '(ds, r) := span_digits rest in (c :: ds, r)
      else ([], cs)
  | [] => ([], [])
  end.

(** A number literal: an optional minus sign, an integer part without
    leading zero, an optional fraction, an optional exponent. *)
Definition read_number (cs : list ascii) : option (string * list ascii) :=
  let '(sign, cs1) :=
    match cs with
    | c :: rest => if Ascii.eqb c "-" then ([c], rest) else ([], cs)
    | [] => ([], cs)
    end in
  let '(int, cs2) := span_digits cs1 in
  match int with
  | [] => None
  | d :: more =>
      if Ascii.eqb d "0" && negb (bool_decide (more = [])) then None
      else
        let frac : option (list ascii * list ascii) :=
          match cs2 with
          | c :: rest =>
              if Ascii.eqb c "." then
                let '(ds, r) := span_digits rest in
                match ds with [] => None | _ => Some (c :: ds, r) end
              else Some ([], cs2)
          | [] => Some ([], cs2)
          end in
        '(fr, cs3) ← frac;
        let exp : option (list ascii * list ascii) :=
          match cs3 with
          | c :: rest =>
              if Ascii.eqb c "e" || Ascii.eqb c "E" then
                let '(sg, rest1) :=
                  match rest with
                  | s :: r => if Ascii.eqb s "+" || Ascii.eqb s "-" then ([s], r) else ([], rest)
                  | [] => ([], rest)
                  end in
                let '(ds, r) := span_digits rest1 in
                match ds with [] => None | _ => Some (c :: sg ++ ds, r) end
              else Some ([], cs3)
          | [] => Some ([], cs3)
          end in
        '(ex, cs4) ← exp;
        Some (String.string_of_list_ascii (sign ++ int ++ fr ++ ex), cs4)
  end.

(** [expect w cs]: [cs] without its prefix [w]. *)
Fixpoint expect (w cs : list ascii) : option (list ascii) :=
  match w, cs with
  | [], _ => Some cs
  | a :: w', c :: cs' => if Ascii.eqb a c then expect w' cs' else None
  | _ :: _, [] => None
  end.

Fixpoint read_value (fuel : nat) (cs : list ascii) : option (json * list ascii) :=
  match fuel with
  | 0 => None
  | S fuel =>
      match skip_ws cs with
      | [] => None
      | c :: rest =>
          if Ascii.eqb c "{" then
            match skip_ws rest with
            | c' :: rest' =>
                if Ascii.eqb c' "}" then Some (JObj ∅, rest')
                else read_members fuel (c' :: rest') ∅
            | [] => None
            end
          else if Ascii.eqb c "[" then
            match skip_ws rest with
            | c' :: rest' =>
                if Ascii.eqb c' "]" then Some (JArr [], rest')
                else read_elements fuel (c' :: rest') []
            | [] => None
            end
          else if Ascii.eqb c dquote then
            '(s, r) ← read_string rest []; Some (JStr s, r)
          else if Ascii.eqb c "t" then
            r ← expect (String.list_ascii_of_string "rue") rest; Some (JBool true, r)
          else if Ascii.eqb c "f" then
            r ← expect (String.list_ascii_of_string "alse") rest; Some (JBool false, r)
          else if Ascii.eqb c "n" then
            r ← expect (String.list_ascii_of_string "ull") rest; Some (JNull, r)
          else
            '(lit, r) ← read_number (c :: rest); Some (JNum lit, r)
      end
  end
with read_elements (fuel : nat) (cs : list ascii) (acc : list json)
  : option (json * list ascii) :=
  match fuel with
  | 0 => None
  | S fuel =>
      '(v, r) ← read_value fuel cs;
      match skip_ws r with
      | c :: rest =>
          if Ascii.eqb c "," then read_elements fuel rest (v :: acc)
          else if Ascii.eqb c "]" then Some (JArr (rev (v :: acc)), rest)
          else None
      | [] => None
      end
  end
with read_members (fuel : nat) (cs : list ascii) (acc : gmap string json)
  : option (json * list ascii) :=
  match fuel with
  | 0 => None
  | S fuel =>
      match skip_ws cs with
      | q :: rest =>
          if Ascii.eqb q dquote then
            '(name, r) ← read_string rest [];
            match skip_ws r with
            | colon :: r1 =>
                if Ascii.eqb colon ":" then
                  '(v, r2) ← read_value fuel r1;
                  match skip_ws r2 with
                  | c :: rest2 =>
                      if Ascii.eqb c "," then read_members fuel rest2 (<[name := v]> acc)
                      else if Ascii.eqb c "}" then Some (JObj (<[name := v]> acc), rest2)
                      else None
                  | [] => None
                  end
                else None
            | [] => None
            end
          else None
      | [] => None
      end
  end.

Definition parse (text : string) : completion json :=
  let cs := String.list_ascii_of_string text in
  match read_value (2 * length cs + 2) cs with
  | Some (v, rest) =>
      match skip_ws rest with
      | [] => Normal v
      | _ :: _ => Throw SyntaxError
      end
  | None => Throw SyntaxError
  end.

(** [quoted s] is [s] between double quotes. *)
Definition quoted (s : string) : string :=
  String dquote (s +:+ String dquote EmptyString).

End JsonRef.

(** The fragment parser at the fragments used in the examples: one [meta]
    element, one paragraph, and text without markup.  Other markup is not
    covered. *)
Definition parseHTML_fixture (s : string) : list node :=
  if String.eqb s "<meta name='verify' content='1'>" then
    [Element "meta" [("name", "verify"); ("content", "1")] []]
  else if String.eqb s "<p>hello</p>" then
    [Element "p" [] [Text "hello"]]
  else text_children s.

(* ===================================================================== *)
(** * Vocabulary of the properties *)
(* ===================================================================== *)

(** The five settings groups and their reserved keys. *)
Inductive group : Type := Seo | Analytics | General | Contact | Social.

#[global] Instance group_eq_dec : EqDecision group.
Proof. solve_decision. Defined.

Definition group_key (g : group) : string :=
  match g with
  | Seo => "settings_seo"
  | Analytics => "settings_analytics"
  | General => "settings_general"
  | Contact => "settings_contact"
  | Social => "settings_social"
  end.

Definition group_default (g : group) : gmap string json :=
  match g with
  | Seo => DEFAULT_SEO
  | Analytics => DEFAULT_ANALYTICS
  | General => DEFAULT_GENERAL
  | Contact => DEFAULT_CONTACT
  | Social => DEFAULT_SOCIAL
  end.

Definition get_group (g : group) (s : AllSiteSettings) : gmap string json :=
  match g with
  | Seo => seo s
  | Analytics => analytics s
  | General => general s
  | Contact => contact s
  | Social => social s
  end.

Definition set_group (g : group) (v : gmap string json) (s : AllSiteSettings)
  : AllSiteSettings :=
  match g with
  | Seo => set_seo v s
  | Analytics => set_analytics v s
  | General => set_general v s
  | Contact => set_contact v s
  | Social => set_social v s
  end.

(** The group a key is reserved for, if any. *)
Definition reserved (key : string) : option group :=
  if String.eqb key "settings_seo" then Some Seo
  else if String.eqb key "settings_analytics" then Some Analytics
  else if String.eqb key "settings_general" then Some General
  else if String.eqb key "settings_contact" then Some Contact
  else if String.eqb key "settings_social" then Some Social
  else None.

(** A row with an injection-point tag, a kind tag and a non-empty value. *)
Definition fully_specified (row : Row.t) : bool :=
  truthy (Row.injection_point row) && truthy (Row.setting_type row)
  && truthy (Row.value row).

(** The sequence of a bundle for an injection point; empty for a name that
    is none of the four. *)
Definition sequence (point : string) (sc : Scripts) : list CustomScript.t :=
  if String.eqb point "head_start" then head_start sc
  else if String.eqb point "head_end" then head_end sc
  else if String.eqb point "body_start" then body_start sc
  else if String.eqb point "body_end" then body_end sc
  else [].

Definition injection_points : list string :=
  ["head_start"; "head_end"; "body_start"; "body_end"].

(** The rows the parser turns into a custom script for [point]: the key does
    not start with [settings_], the three tags are there, and the injection
    point is [point]. *)
Definition routed_to (point : string) (row : Row.t) : bool :=
  negb (String.prefix "settings_" (Row.key row))
  && fully_specified row
  && bool_decide (Row.injection_point row = Some point).

(** No cached bundle is valid at [now]: the slot is empty or the entry is at
    least [CACHE_DURATION] old. *)
Definition expired (now : Z) (s : Loader) : Prop :=
  match settingsCache s with
  | Some c => (CACHE_DURATION <= now - timestamp c)%Z
  | None => True
  end.

(** The query failed: the awaited call rejected, or it resolved with an
    [error]. *)
Definition transport_failure (out : transport) : Prop :=
  match out with
  | Failed _ => True
  | Replied r => is_Some (Response.error r)
  end.

(** The value of attribute [name] on a node, for an element that has it. *)
Definition marker (name : string) (n : node) : option string :=
  match n with
  | Element _ attrs _ => getAttribute name attrs
  | Text _ | Comment _ => None
  end.


(** The kinds of item [injectIntoBody] creates a node for. *)
Definition body_kind (script : CustomScript.t) : bool :=
  String.eqb (CustomScript.setting_type script) "script"
  || String.eqb (CustomScript.setting_type script) "custom_html".

(** The kinds of item [injectIntoHead] moves markup for. *)
Definition head_kind (script : CustomScript.t) : bool :=
  String.eqb (CustomScript.setting_type script) "meta_tag"
  || String.eqb (CustomScript.setting_type script) "custom_html".


(** The document after [injectIntoHead] has moved [moved] into the head. *)
Definition append_head (moved : list node) (doc : document) : document :=
  mkDocument (html_attrs doc) (head_attrs doc) (head doc ++ moved)
             (body_attrs doc) (body doc).

(** Inline code used to run the analytics effect on concrete settings. *)
Definition code_sample (id v : string) : string := id +:+ ":" +:+ v.

Definition empty_document : document := mkDocument [] [] [] [] [].

(** ** The parser and the effects as total functions

    Definitions used to state and prove the properties. *)

Section ParserTotal.

Variable JSON_parse : string -> completion json.

(** What [parseJsonValue] returns; it never throws ([parseJsonValue_Normal]). *)
Definition merged (value : option string) (defaults : gmap string json)
  : gmap string json :=
  match parseJsonValue JSON_parse value defaults with
  | Normal v => v
  | Throw _ => defaults
  end.

(** The bundle after one more row; the loop body never throws
    ([parse_row_Normal]). *)
Definition after_row (settings : AllSiteSettings) (row : Row.t) : AllSiteSettings :=
  match parse_row JSON_parse settings row with
  | Normal s => s
  | Throw _ => settings
  end.

End ParserTotal.

(** Every outstanding request is the one in the pending slot. *)
Definition slot_tracks_requests (s : Loader) : Prop :=
  forall p, promises s !! p = Some Pending -> pendingRequest s = Some p.




(** The five provider blocks of the analytics effect, in order. *)
Definition providers (code : string -> string -> string) (a : AnalyticsSettings)
    (st : document * list node) : document * list node :=
  when (hotjar_id a) (hotjar code)
    (when (tiktok_pixel_id a) (tiktok code)
       (when (meta_pixel_id a) (meta_pixel code)
          (when (google_tag_manager_id a) (gtm code)
             (when (google_analytics_id a) (ga4 code) st)))).

(* ===================================================================== *)
(** * Concrete rows, settings and documents for the examples *)
(* ===================================================================== *)

Definition meta_title_X : string :=
  "{" +:+ JsonRef.quoted "meta_title" +:+ ":" +:+ JsonRef.quoted "X" +:+ "}".
Definition site_name_SK : string :=
  "{" +:+ JsonRef.quoted "site_name" +:+ ":" +:+ JsonRef.quoted "SK" +:+ "}".
Definition group_row (key : string) (value : option string) : Row.t :=
  Row.mk key value None None None None None.
Definition custom_row (key : string) (point : option string) : Row.t :=
  Row.mk key (Some "console.log(1)") (Some "script") point (Some "") (Some "") None.
Definition offline : transport := Failed (OtherError "offline").
Definition fresh_refs : AnalyticsRefs := mkRefs [] false.
Definition chat_widget : CustomScript.t :=
  CustomScript.mk "7" "chat" "Chat widget" "console.log(1)" "script" "body_end" 0.
Definition verification : CustomScript.t :=
  CustomScript.mk "1" "verify" "Site verification" "<meta name='verify' content='1'>"
                  "meta_tag" "head_start" 0.
Definition stylesheet : CustomScript.t :=
  CustomScript.mk "8" "theme" "Theme" "/theme.css" "link" "body_end" 0.

(* ===================================================================== *)
(** * src/lib/context/SiteSettingsContext.tsx: the provider *)
(* ===================================================================== *)

(** The provider's three pieces of React state, and the calls of
    [loadSettings] that are suspended at their [await], each with what
    [fetchAllSiteSettings] handed it.  A thrown value is kept as it is (the
    code wraps one that is not an [Error]). *)
Module Provider.
Record t : Type := mk {
  settings : option ref;
  isLoading : bool;
  error : option js_error;
  loads : list fetched
}.
End Provider.

Definition provider_initial : Provider.t :=
  Provider.mk None true None [].

(** What the promise returned by [fetchAllSiteSettings] has settled to, if it
    has: a cached bundle is returned at once, a shared request is followed. *)
Definition awaited (l : Loader) (f : fetched) : option (completion ref) :=
  match f with
  | Hit d => Some (Normal d)
  | Wait p =>
      match promises l !! p with
      | Some (Fulfilled d) => Some (Normal d)
      | Some (Rejected e) => Some (Throw e)
      | Some Pending | None => None
      end
  end.

(** [loadSettings], up to its [await]. *)
Definition loadSettings (now : Z) (st : Loader * Provider.t) : Loader * Provider.t :=
  let '(l, p) := st in
  let '(l', f) := fetchAllSiteSettings now l in
  (l', Provider.mk (Provider.settings p) true None (Provider.loads p ++ [f])).

(** The rest of the [i]-th suspended [loadSettings], once its promise has
    settled: [try] sets the bundle, [catch] sets the error, [finally] ends
    the loading state. *)
Definition resume (i : nat) (st : Loader * Provider.t) : Loader * Provider.t :=
  let '(l, p) := st in
  match Provider.loads p !! i with
  | Some f =>
      match awaited l f with
      | Some (Normal d) =>
          (l, Provider.mk (Some d) false (Provider.error p) (delete i (Provider.loads p)))
      | Some (Throw e) =>
          (l, Provider.mk (Provider.settings p) false (Some e) (delete i (Provider.loads p)))
      | None => st
      end
  | None => st
  end.

(** The provider's [refreshSettings], up to the [await] of [loadSettings]. *)
Definition provider_refresh (now : Z) (st : Loader * Provider.t) : Loader * Provider.t :=
  loadSettings now (clearSettingsCache (fst st), snd st).

Inductive provider_event : Type :=
  | Mounted (now : Z)
  | Refreshed (now : Z)
  | Resumed (i : nat)
  | Answered (p : promise) (out : transport) (now : Z).

Section ProviderSteps.

Variable JSON_parse : string -> completion json.

Definition provider_step (st : Loader * Provider.t) (e : provider_event)
  : Loader * Provider.t :=
  match e with
  | Mounted now => loadSettings now st
  | Refreshed now => provider_refresh now st
  | Resumed i => resume i st
  | Answered p out now => (settle JSON_parse p out now (fst st), snd st)
  end.

(** The states of loader and provider when the provider is the only caller
    of the loader. *)
Inductive provider_reachable : Loader * Provider.t -> Prop :=
  | provider_reach_initial : provider_reachable (initial, provider_initial)
  | provider_reach_step st e :
      provider_reachable st -> provider_reachable (provider_step st e).

End ProviderSteps.

(** Number of calls of [clearSettingsCache] among the events. *)
Definition clears (es : list event) : nat :=
  length (List.filter (fun e => match e with Clear => true | _ => false end) es).

(** The loader's bookkeeping is consistent: one query per request, the
    pending slot names a request that has not settled, no request has
    rejected, and every reference in the cache slot or in a settled request
    is to an allocated bundle. *)
Record loader_wf (s : Loader) : Prop := {
  wf_queries : queries s = length (promises s);
  wf_slot : forall p, pendingRequest s = Some p -> promises s !! p = Some Pending;
  wf_no_reject : forall p e, promises s !! p <> Some (Rejected e);
  wf_cache : forall c, settingsCache s = Some c -> data c < length (objects s);
  wf_fulfilled : forall p d, promises s !! p = Some (Fulfilled d) -> d < length (objects s)
}.

(** What the provider shows is consistent with the loader. *)
Record provider_wf (l : Loader) (p : Provider.t) : Prop := {
  wf_error : Provider.error p = None;
  wf_loaded : Provider.isLoading p = false -> is_Some (Provider.settings p);
  wf_settings : forall d, Provider.settings p = Some d -> d < length (objects l);
  wf_loads : forall d, Hit d ∈ Provider.loads p -> d < length (objects l);
  wf_waits : forall q, Wait q ∈ Provider.loads p -> q < length (promises l)
}.

(** Pending-slot indicator: 1 when the slot is filled. *)
Definition slot_count (s : Loader) : nat :=
  match pendingRequest s with
  | Some _ => 1
  | None => 0
  end.

(** A string of decimal digits, as the property names of array indices are. *)
Definition all_digits (s : string) : bool :=
  forallb JsonRef.is_digit (String.list_ascii_of_string s).

(** Some row carries the reserved key of group [g]. *)
Definition has_group_row (g : group) (rows : list Row.t) : bool :=
  existsb (fun r => String.eqb (Row.key r) (group_key g)) rows.

(** A parsed value that is not an object. *)
Definition not_object (v : json) : bool :=
  match v with
  | JObj _ => false
  | _ => true
  end.

(** A parsed value without own enumerable properties. *)
Definition scalar (v : json) : bool :=
  match v with
  | JNull | JBool _ | JNum _ => true
  | _ => false
  end.

(* ===================================================================== *)
(** * src/components/SEOInjector.tsx: the declared head tags *)
(* ===================================================================== *)

(** The component is typed against the [SeoSettings] and [GeneralSettings]
    interfaces: every field a string. *)
Record SeoSettings : Type := mkSeo {
  meta_title : string;
  meta_description : string;
  meta_keywords : string;
  og_title : string;
  og_description : string;
  og_image_url : string;
  og_type : string;
  twitter_card : string;
  twitter_site : string;
  twitter_creator : string;
  canonical_url : string;
  robots : string;
  google_site_verification : string;
  bing_site_verification : string
}.

Record GeneralSettings : Type := mkGeneral {
  site_name : string;
  site_tagline : string;
  site_description : string;
  logo_url : string;
  logo_dark_url : string;
  favicon_url : string;
  default_language : string;
  timezone : string
}.

(** The three parts of the bundle the component reads. *)
Record SettingsView : Type := mkView {
  view_seo : SeoSettings;
  view_general : GeneralSettings;
  view_scripts : Scripts
}.

(** [pageMeta?: { title?, description?, ogImage?, canonical?, keywords? }] *)
Module PageMeta.
Record t : Type := mk {
  title : option string;
  description : option string;
  ogImage : option string;
  canonical : option string;
  keywords : option (list string)
}.
End PageMeta.

(** [a || b] on optional strings. *)
Definition or_opt (a b : option string) : option string :=
  if truthy a then a else b.

(** [{v && <tag ... />}]: the tag when [v] is truthy. *)
Definition when_truthy (v : option string) (tag : string -> node) : list node :=
  match v with
  | Some s => if nonempty s then [tag s] else []
  | None => []
  end.

Definition meta_name (name content : string) : node :=
  Element "meta" [("name", name); ("content", content)] [].
Definition meta_property (property content : string) : node :=
  Element "meta" [("property", property); ("content", content)] [].

(** [renderScript]: the element declared for a head item, with its React
    key; [null] for the kinds that are injected through the DOM. *)
Definition renderScript (script : CustomScript.t) : option (string * node) :=
  let value := CustomScript.value script in
  let kind := CustomScript.setting_type script in
  if negb (nonempty value) then None
  else if String.eqb kind "meta_tag" || String.eqb kind "custom_html" then None
  else if String.eqb kind "script" then
    Some (CustomScript.id script, Element "script" [] (text_children value))
  else if String.eqb kind "link" then
    Some (CustomScript.id script, Element "link" [("rel", "stylesheet"); ("href", value)] [])
  else if String.eqb kind "json_ld" then
    Some (CustomScript.id script,
          Element "script" [("type", "application/ld+json")] (text_children value))
  else None.

(** The children the component declares inside [<Helmet>], in order. *)
Definition SEOInjector_tags (pageMeta : option PageMeta.t) (pathname : string)
    (settings : option SettingsView) (isLoading : bool) : list node :=
  let isHomepage := String.eqb pathname "/" in
  let seoSettings := view_seo <$> settings in
  let scripts := view_scripts <$> settings in
  let generalSettings := view_general <$> settings in
  let home (v : option string) : option string := if isHomepage then v else None in
  let title := or_opt (pageMeta ≫= PageMeta.title) (home (meta_title <$> seoSettings)) in
  let description :=
    or_opt (pageMeta ≫= PageMeta.description) (home (meta_description <$> seoSettings)) in
  let ogImage :=
    or_opt (or_opt (pageMeta ≫= PageMeta.ogImage) (og_image_url <$> seoSettings)) (Some "") in
  let canonical :=
    or_opt (pageMeta ≫= PageMeta.canonical) (home (canonical_url <$> seoSettings)) in
  let keywords :=
    or_opt (String.concat ", " <$> (pageMeta ≫= PageMeta.keywords))
           (home (meta_keywords <$> seoSettings)) in
  let robots := or_opt (robots <$> seoSettings) (Some "index, follow") in
  let ogTitle := home (or_opt (og_title <$> seoSettings) title) in
  let ogDescription := home (or_opt (og_description <$> seoSettings) description) in
  let ogType := or_opt (og_type <$> seoSettings) (Some "website") in
  let twitterCard := or_opt (twitter_card <$> seoSettings) (Some "summary_large_image") in
  let twitterSite := or_opt (twitter_site <$> seoSettings) (Some "") in
  let twitterCreator := or_opt (twitter_creator <$> seoSettings) (Some "") in
  let siteName := or_opt (site_name <$> generalSettings) (Some "Supermal Karawaci") in
  let faviconUrl := or_opt (favicon_url <$> generalSettings) (Some "/vite.svg") in
  [ Element "meta" [("charSet", "UTF-8")] [];
    meta_name "viewport" "width=device-width, initial-scale=1.0" ]
  ++ when_truthy title (fun t => Element "title" [] [Text t])
  ++ when_truthy description (meta_name "description")
  ++ [ meta_name "robots" (default "" robots) ]
  ++ when_truthy keywords (meta_name "keywords")
  ++ when_truthy canonical (fun c => Element "link" [("rel", "canonical"); ("href", c)] [])
  ++ [ Element "link" [("rel", "icon"); ("type", "image/x-icon");
                       ("href", default "" faviconUrl)] [] ]
  ++ (if isHomepage then
        [ meta_property "og:type" (default "" ogType);
          meta_property "og:site_name" (default "" siteName);
          meta_property "og:locale" "id_ID" ]
        ++ when_truthy ogTitle (meta_property "og:title")
        ++ when_truthy ogDescription (meta_property "og:description")
        ++ when_truthy canonical (meta_property "og:url")
        ++ when_truthy ogImage (meta_property "og:image")
      else [])
  ++ (if isHomepage then
        [ meta_name "twitter:card" (default "" twitterCard) ]
        ++ when_truthy ogTitle (meta_name "twitter:title")
        ++ when_truthy ogDescription (meta_name "twitter:description")
        ++ when_truthy twitterSite (meta_name "twitter:site")
        ++ when_truthy twitterCreator (meta_name "twitter:creator")
        ++ when_truthy ogImage (meta_name "twitter:image")
      else [])
  ++ when_truthy (google_site_verification <$> seoSettings)
                 (meta_name "google-site-verification")
  ++ when_truthy (bing_site_verification <$> seoSettings) (meta_name "msvalidate.01")
  ++ match scripts with
     | Some sc =>
         if isLoading then []
         else map snd (omap renderScript (head_start sc))
              ++ map snd (omap renderScript (head_end sc))
     | None => []
     end.

(** The text of the elements with tag [tag]. *)
Definition tag_texts (tag : string) (l : list node) : list string :=
  flat_map (fun n => match n with
                     | Element t _ [Text s] => if String.eqb t tag then [s] else []
                     | _ => []
                     end) l.

(** [n] is an element with tag [tag]. *)
Definition has_tag (tag : string) (n : node) : bool :=
  match n with
  | Element t _ _ => String.eqb t tag
  | Text _ | Comment _ => false
  end.

(** What a step of the analytics effect may do: append [script] elements
    to the head, registering each for removal, and put at most [front]
    [noscript] elements before and [back] after the children of the body. *)
Definition adds_scripts (front back : nat)
    (f : document * list node -> document * list node) : Prop :=
  forall st, exists new before after,
    snd (f st) = snd st ++ new
    /\ head (fst (f st)) = head (fst st) ++ new
    /\ body (fst (f st)) = before ++ body (fst st) ++ after
    /\ Forall (fun n => has_tag "script" n = true) new
    /\ Forall (fun n => has_tag "noscript" n = true) (before ++ after)
    /\ length before <= front /\ length after <= back.

(** ** Settings, items and provider runs for the examples of the consumers *)

Definition default_seo : SeoSettings :=
  mkSeo "Supermal Karawaci" "Shopping Mall in Tangerang" "" "" "" "" "website"
        "summary_large_image" "" "" "https://supermalkarawaci.co.id" "index, follow" "" "".
Definition default_general : GeneralSettings :=
  mkGeneral "Supermal Karawaci" "" "" "" "" "" "id" "Asia/Jakarta".
Definition default_view : SettingsView :=
  mkView default_seo default_general (mkScripts [] [] [] []).
Definition retitled_view : SettingsView :=
  mkView (mkSeo "Another title" "Another description" "mall" "OG" "" "/og.png" "place"
                "summary" "@sk" "" "https://example.org" "index, follow" "" "")
         (mkGeneral "Another name" "" "" "" "" "" "en" "UTC")
         (mkScripts [] [] [] []).
Definition about_page : PageMeta.t :=
  PageMeta.mk (Some "About") None None None None.
Definition untitled_page : PageMeta.t :=
  PageMeta.mk None (Some "About us") None None None.
Definition banner : CustomScript.t :=
  CustomScript.mk "9" "banner" "Banner" "<p>hello</p>" "custom_html" "body_start" 0.
Definition tracker : CustomScript.t :=
  CustomScript.mk "10" "tracker" "Tracker" "console.log(2)" "script" "body_start" 1.
Definition all_pixels : AnalyticsSettings := mkAnalytics "G-1" "GTM-1" "42" "" "".
Definition seo_array_row : Row.t := group_row "settings_seo" (Some "[1]").
(** The provider has mounted and its request is in flight. *)
Definition mounted : Loader * Provider.t :=
  provider_step JsonRef.parse (initial, provider_initial) (Mounted 0).

(* ===================================================================== *)
(** * The row parser: properties *)
(* ===================================================================== *)

Section ParserFacts.
Variable JSON_parse : string -> completion json.
Local Abbreviation parse := (parseSettingsFromData JSON_parse).

Lemma parseJsonValue_Normal value defaults :
  parseJsonValue JSON_parse value defaults = Normal (merged JSON_parse value defaults).
Proof.
  unfold merged, parseJsonValue.
  destruct (negb (truthy value)); [reflexivity|].
  destruct (JSON_parse (default "" value)); reflexivity.
Qed.

Lemma merged_falsy value defaults :
  truthy value = false -> merged JSON_parse value defaults = defaults.
Proof. intros H. unfold merged, parseJsonValue. rewrite H. reflexivity. Qed.

Lemma merged_throw text e defaults :
  JSON_parse text = Throw e -> merged JSON_parse (Some text) defaults = defaults.
Proof.
  intros H. unfold merged, parseJsonValue.
  destruct (negb (truthy (Some text))); [reflexivity|].
  simpl. rewrite H. reflexivity.
Qed.

Lemma merged_object text v defaults :
  text <> "" -> JSON_parse text = Normal v ->
  merged JSON_parse (Some text) defaults = own_props v ∪ defaults.
Proof.
  intros Hne H. unfold merged, parseJsonValue. simpl.
  destruct (String.eqb_spec text ""); [contradiction|].
  simpl. rewrite H. reflexivity.
Qed.

Lemma reserved_group_key g : reserved (group_key g) = Some g.
Proof. destruct g; reflexivity. Qed.

Lemma reserved_Some key g : reserved key = Some g -> key = group_key g.
Proof.
  unfold reserved.
  repeat match goal with
         | |- context [String.eqb key ?k] =>
             destruct (String.eqb_spec key k) as [->|_]; [intros [= <-]; reflexivity|]
         end.
  discriminate.
Qed.

Lemma reserved_prefix key g : reserved key = Some g -> String.prefix "settings_" key = true.
Proof. intros ->%reserved_Some. destruct g; reflexivity. Qed.

(** The loop body, by kind of row. *)
Lemma parse_row_reserved settings row g :
  reserved (Row.key row) = Some g ->
  parse_row JSON_parse settings row
  = Normal (set_group g (merged JSON_parse (Row.value row) (group_default g)) settings).
Proof.
  intros H. pose proof (reserved_Some _ _ H) as Hk.
  unfold parse_row. rewrite Hk.
  destruct g; simpl; rewrite parseJsonValue_Normal; reflexivity.
Qed.

Lemma parse_row_other settings row :
  reserved (Row.key row) = None ->
  parse_row JSON_parse settings row
  = Normal (if negb (String.prefix "settings_" (Row.key row)) && fully_specified row
            then set_scripts
                   (push_script (default "" (Row.injection_point row))
                                (script_of_row row) (scripts settings)) settings
            else settings).
Proof.
  unfold reserved, parse_row, fully_specified.
  repeat (destruct (String.eqb (Row.key row) _); [discriminate|]).
  intros _. rewrite !andb_assoc.
  destruct (_ && _ && _ && _); reflexivity.
Qed.

Lemma parse_row_Normal settings row :
  parse_row JSON_parse settings row = Normal (after_row JSON_parse settings row).
Proof.
  unfold after_row.
  destruct (reserved (Row.key row)) as [g|] eqn:H.
  - rewrite (parse_row_reserved _ _ _ H). reflexivity.
  - rewrite (parse_row_other _ _ H). reflexivity.
Qed.

Lemma for_of_parse_row rows settings :
  for_of (parse_row JSON_parse) rows settings
  = Normal (foldl (after_row JSON_parse) settings rows).
Proof.
  revert settings. induction rows as [|row rows IH]; intros settings; simpl.
  - reflexivity.
  - rewrite parse_row_Normal. simpl. apply IH.
Qed.

Lemma parse_Normal rows :
  parse rows = Normal (foldl (after_row JSON_parse) getDefaultSettings rows).
Proof. apply for_of_parse_row. Qed.

Lemma after_row_reserved settings row g :
  reserved (Row.key row) = Some g ->
  after_row JSON_parse settings row
  = set_group g (merged JSON_parse (Row.value row) (group_default g)) settings.
Proof. intros H. unfold after_row. rewrite (parse_row_reserved _ _ _ H). reflexivity. Qed.

Lemma after_row_other settings row :
  reserved (Row.key row) = None ->
  after_row JSON_parse settings row
  = if negb (String.prefix "settings_" (Row.key row)) && fully_specified row
    then set_scripts
           (push_script (default "" (Row.injection_point row))
                        (script_of_row row) (scripts settings)) settings
    else settings.
Proof. intros H. unfold after_row. rewrite (parse_row_other _ _ H). reflexivity. Qed.

Lemma get_set_group g v s : get_group g (set_group g v s) = v.
Proof. destruct g; reflexivity. Qed.

Lemma get_set_group_ne g g' v s : g' <> g -> get_group g' (set_group g v s) = get_group g' s.
Proof. destruct g, g'; intros H; try reflexivity; contradiction. Qed.

Lemma scripts_set_group g v s : scripts (set_group g v s) = scripts s.
Proof. destruct g; reflexivity. Qed.

Lemma set_group_id g s : set_group g (get_group g s) s = s.
Proof. destruct g, s; reflexivity. Qed.

Lemma set_group_set_group g v w s : set_group g v (set_group g w s) = set_group g v s.
Proof. destruct g; reflexivity. Qed.

(** A row touches a group only through that group's reserved key. *)
Lemma get_group_after_row_ne g s row :
  Row.key row <> group_key g ->
  get_group g (after_row JSON_parse s row) = get_group g s.
Proof.
  intros Hk. destruct (reserved (Row.key row)) as [g'|] eqn:H.
  - rewrite (after_row_reserved _ _ _ H). apply get_set_group_ne.
    intros ->. apply Hk. apply reserved_Some, H.
  - rewrite (after_row_other _ _ H). destruct (_ && _); destruct g; reflexivity.
Qed.

Lemma get_group_foldl_ne g rows s :
  Forall (fun r => Row.key r <> group_key g) rows ->
  get_group g (foldl (after_row JSON_parse) s rows) = get_group g s.
Proof.
  intros H. revert s. induction H as [|row rows Hrow _ IH]; intros s; simpl.
  - reflexivity.
  - rewrite IH. apply get_group_after_row_ne, Hrow.
Qed.

(** Rows after a point act alike on two bundles that differ in one group:
    the difference stays within that group. *)
Lemma foldl_after_row_frame g rows s s' :
  (forall g', g' <> g -> get_group g' s = get_group g' s') ->
  scripts s = scripts s' ->
  (forall g', g' <> g ->
     get_group g' (foldl (after_row JSON_parse) s rows)
     = get_group g' (foldl (after_row JSON_parse) s' rows))
  /\ scripts (foldl (after_row JSON_parse) s rows)
     = scripts (foldl (after_row JSON_parse) s' rows).
Proof.
  revert s s'. induction rows as [|row rows IH]; intros s s' Hg Hs; simpl.
  - split; assumption.
  - apply IH.
    + intros g' Hne. destruct (reserved (Row.key row)) as [g0|] eqn:H.
      * rewrite !(after_row_reserved _ _ _ H).
        destruct (decide (g' = g0)) as [->|Hne0].
        -- rewrite !get_set_group. reflexivity.
        -- rewrite !get_set_group_ne by assumption. apply Hg, Hne.
      * rewrite !(after_row_other _ _ H).
        destruct (_ && _); [|apply Hg, Hne].
        destruct g'; simpl; apply (Hg _ Hne).
    + destruct (reserved (Row.key row)) as [g0|] eqn:H.
      * rewrite !(after_row_reserved _ _ _ H), !scripts_set_group. exact Hs.
      * rewrite !(after_row_other _ _ H).
        destruct (_ && _); [|exact Hs]. simpl. rewrite Hs. reflexivity.
Qed.
End ParserFacts.

Section ParserProperties.
Variable JSON_parse : string -> completion json.
Local Abbreviation parse := (parseSettingsFromData JSON_parse).

Lemma elem_of_injection_points point :
  point ∈ injection_points ->
  point = "head_start" \/ point = "head_end" \/ point = "body_start" \/ point = "body_end".
Proof.
  unfold injection_points. rewrite !elem_of_cons, elem_of_nil. tauto.
Qed.

Lemma sequence_push_script point p script sc :
  point ∈ injection_points ->
  sequence point (push_script p script sc)
  = sequence point sc ++ (if bool_decide (p = point) then [script] else []).
Proof.
  intros Hp. apply elem_of_injection_points in Hp.
  unfold push_script.
  repeat match goal with
         | |- context [String.eqb p ?k] => destruct (String.eqb_spec p k) as [->|?]
         end;
    destruct Hp as [-> | [-> | [-> | ->]]]; simpl;
    try (rewrite bool_decide_eq_false_2 by congruence);
    try (rewrite bool_decide_eq_true_2 by congruence);
    rewrite ?app_nil_r; try reflexivity; congruence.
Qed.

Lemma truthy_Some o : truthy o = true -> exists s, o = Some s /\ s <> "".
Proof.
  destruct o as [s|]; simpl; [|discriminate].
  destruct (String.eqb_spec s ""); [discriminate|]. eauto.
Qed.

Lemma sequence_after_row point s row :
  point ∈ injection_points ->
  sequence point (scripts (after_row JSON_parse s row))
  = sequence point (scripts s) ++ (if routed_to point row then [script_of_row row] else []).
Proof.
  intros Hp. unfold routed_to.
  destruct (reserved (Row.key row)) as [g|] eqn:H.
  - rewrite (after_row_reserved _ _ _ _ H), scripts_set_group.
    rewrite (reserved_prefix _ _ H). simpl. rewrite app_nil_r. reflexivity.
  - rewrite (after_row_other _ _ _ H).
    destruct (negb _ && fully_specified row) eqn:Hc; simpl.
    + rewrite sequence_push_script by assumption.
      unfold fully_specified in Hc. apply andb_prop in Hc as [_ Hc].
      apply andb_prop in Hc as [Hc _]. apply andb_prop in Hc as [Hc _].
      apply truthy_Some in Hc as (p & -> & _). simpl.
      destruct (decide (p = point)) as [->|Hne].
      * rewrite !bool_decide_eq_true_2; reflexivity.
      * rewrite !bool_decide_eq_false_2; congruence.
    + rewrite app_nil_r. reflexivity.
Qed.

Lemma sequence_foldl point rows s :
  point ∈ injection_points ->
  sequence point (scripts (foldl (after_row JSON_parse) s rows))
  = sequence point (scripts s) ++ map script_of_row (List.filter (routed_to point) rows).
Proof.
  intros Hp. revert s. induction rows as [|row rows IH]; intros s; simpl.
  - rewrite app_nil_r. reflexivity.
  - rewrite IH, sequence_after_row by assumption.
    destruct (routed_to point row); simpl.
    + rewrite <- app_assoc. reflexivity.
    + rewrite app_nil_r. reflexivity.
Qed.

(** The four sequences of a parsed bundle. *)
Lemma sequence_parse point rows :
  point ∈ injection_points ->
  sequence point (scripts (foldl (after_row JSON_parse) getDefaultSettings rows))
  = map script_of_row (List.filter (routed_to point) rows).
Proof.
  intros Hp. rewrite sequence_foldl by assumption.
  apply elem_of_injection_points in Hp as [-> | [-> | [-> | ->]]]; reflexivity.
Qed.

Lemma foldl_app_row (before after : list Row.t) row s :
  foldl (after_row JSON_parse) s (before ++ row :: after)
  = foldl (after_row JSON_parse)
      (after_row JSON_parse (foldl (after_row JSON_parse) s before) row) after.
Proof. rewrite foldl_app. reflexivity. Qed.

Lemma get_group_default g : get_group g getDefaultSettings = group_default g.
Proof. destruct g; reflexivity. Qed.

(** C4.  A row with the reserved key of a group and a value that parses to
    a JSON object is shallow-merged over the defaults of that group: the
    group of the parsed bundle is the object's properties laid over the
    default object, so a field present in the JSON has the stored value and
    a field absent from it has its default.  (The row decides the group
    unless a later row carries the same key.) *)
Theorem merge_over_default (before after : list Row.t) row g text props :
  Row.key row = group_key g ->
  Row.value row = Some text ->
  text <> "" ->
  JSON_parse text = Normal (JObj props) ->
  Forall (fun r => Row.key r <> group_key g) after ->
  exists b,
    parse (before ++ row :: after) = Normal b
    /\ get_group g b = props ∪ group_default g
    /\ forall field,
         (forall x, props !! field = Some x -> get_group g b !! field = Some x)
         /\ (props !! field = None -> get_group g b !! field = group_default g !! field).
Proof.
  intros Hk Hv Hne Hj Hafter.
  eexists. split; [apply parse_Normal|].
  assert (Hg : get_group g (foldl (after_row JSON_parse) getDefaultSettings
                              (before ++ row :: after))
               = props ∪ group_default g).
  { rewrite foldl_app_row, get_group_foldl_ne by assumption.
    rewrite (after_row_reserved _ _ _ g) by (rewrite Hk; apply reserved_group_key).
    rewrite get_set_group, Hv.
    rewrite (merged_object _ _ _ _ Hne Hj). reflexivity. }
  split; [exact Hg|].
  intros field. rewrite Hg. split.
  - intros x Hx. apply lookup_union_Some_l, Hx.
  - intros Hx. apply lookup_union_r, Hx.
Qed.

(** C5.  The parser returns a bundle for every list of rows, and a reserved
    row whose value [JSON.parse] rejects changes nothing but its own group:
    every other group and the four script sequences are what they are
    without the row, and the group itself is at its default (unless a later
    row carries the same key). *)
Theorem parser_total_and_isolating :
  (forall rows, exists b, parse rows = Normal b)
  /\ (forall (before after : list Row.t) row g text e,
        Row.key row = group_key g ->
        Row.value row = Some text ->
        JSON_parse text = Throw e ->
        exists b b',
          parse (before ++ row :: after) = Normal b
          /\ parse (before ++ after) = Normal b'
          /\ (forall g', g' <> g -> get_group g' b = get_group g' b')
          /\ scripts b = scripts b'
          /\ (Forall (fun r => Row.key r <> group_key g) after ->
              get_group g b = group_default g)).
Proof.
  split.
  - intros rows. eexists. apply parse_Normal.
  - intros before after row g text e Hk Hv Hj.
    do 2 eexists. split; [apply parse_Normal|]. split; [apply parse_Normal|].
    assert (Hr : reserved (Row.key row) = Some g)
      by (rewrite Hk; apply reserved_group_key).
    rewrite foldl_app_row, foldl_app, (after_row_reserved _ _ _ _ Hr), Hv.
    rewrite (merged_throw _ _ _ _ Hj).
    destruct (foldl_after_row_frame JSON_parse g after
                (set_group g (group_default g)
                   (foldl (after_row JSON_parse) getDefaultSettings before))
                (foldl (after_row JSON_parse) getDefaultSettings before))
      as [Hgroups Hscripts].
    { intros g' Hne. apply get_set_group_ne, Hne. }
    { apply scripts_set_group. }
    split; [exact Hgroups|]. split; [exact Hscripts|].
    intros Hafter. rewrite get_group_foldl_ne by assumption. apply get_set_group.
Qed.

(** C6, amended.  The sequence of each injection point is, in input order,
    one custom script per row whose key does not start with [settings_], that
    has an injection-point tag, a kind tag and a non-empty value, and whose
    injection point is that point.  So such a row is appended exactly once,
    to its own sequence only, and a row without injection point is in none
    of the four. *)
Theorem custom_script_routing rows :
  exists b,
    parse rows = Normal b
    /\ head_start (scripts b) = map script_of_row (List.filter (routed_to "head_start") rows)
    /\ head_end (scripts b) = map script_of_row (List.filter (routed_to "head_end") rows)
    /\ body_start (scripts b) = map script_of_row (List.filter (routed_to "body_start") rows)
    /\ body_end (scripts b) = map script_of_row (List.filter (routed_to "body_end") rows).
Proof.
  eexists. split; [apply parse_Normal|].
  repeat split.
  - apply (sequence_parse "head_start"). set_solver.
  - apply (sequence_parse "head_end"). set_solver.
  - apply (sequence_parse "body_start"). set_solver.
  - apply (sequence_parse "body_end"). set_solver.
Qed.

(** C7, amended.  A row that is neither reserved nor fully specified leaves
    the bundle as it is without the row.  A reserved row with a missing or
    empty value sets its group to the default: it leaves the bundle as it is
    without the row when no earlier row carries the same key. *)
Theorem dropped_rows (before after : list Row.t) row :
  ((reserved (Row.key row) = None /\ fully_specified row = false)
   \/ (exists g, reserved (Row.key row) = Some g
                 /\ truthy (Row.value row) = false
                 /\ Forall (fun r => Row.key r <> group_key g) before) ->
   parse (before ++ row :: after) = parse (before ++ after))
  /\ (forall g, reserved (Row.key row) = Some g ->
                truthy (Row.value row) = false ->
      exists b1 b,
        parse before = Normal b1
        /\ parse (before ++ [row]) = Normal b
        /\ b = set_group g (group_default g) b1).
Proof.
  split.
  - intros H. rewrite !parse_Normal, foldl_app_row, foldl_app. do 2 f_equal.
    destruct H as [[Hr Hf] | (g & Hr & Hv & Hb)].
    + rewrite (after_row_other _ _ _ Hr), Hf, andb_false_r. reflexivity.
    + rewrite (after_row_reserved _ _ _ _ Hr), (merged_falsy _ _ _ Hv).
      rewrite <- (get_group_default g).
      rewrite <- (get_group_foldl_ne JSON_parse g before getDefaultSettings Hb) at 1.
      apply set_group_id.
  - intros g Hr Hv. do 2 eexists. split; [apply parse_Normal|].
    split; [apply parse_Normal|].
    rewrite foldl_app_row. simpl.
    rewrite (after_row_reserved _ _ _ _ Hr), (merged_falsy _ _ _ Hv). reflexivity.
Qed.

(** C10, amended.  Every custom script of a parsed bundle comes from a row
    of the input; its id is the row's id when that is present and non-empty
    and the row's key otherwise, likewise its display name, and its sort
    order is the row's when present and non-zero and 0 otherwise. *)
Theorem script_field_defaults rows b point e :
  parse rows = Normal b ->
  point ∈ injection_points ->
  e ∈ sequence point (scripts b) ->
  exists row,
    row ∈ rows
    /\ Row.injection_point row = Some point
    /\ CustomScript.key e = Row.key row
    /\ (forall x, Row.id row = Some x -> x <> "" -> CustomScript.id e = x)
    /\ (Row.id row = None \/ Row.id row = Some "" -> CustomScript.id e = Row.key row)
    /\ (forall x, Row.display_name row = Some x -> x <> "" ->
                  CustomScript.display_name e = x)
    /\ (Row.display_name row = None \/ Row.display_name row = Some "" ->
        CustomScript.display_name e = Row.key row)
    /\ (forall n, Row.sort_order row = Some n -> n <> 0%Z -> CustomScript.sort_order e = n)
    /\ (Row.sort_order row = None \/ Row.sort_order row = Some 0%Z ->
        CustomScript.sort_order e = 0%Z).
Proof.
  intros Hb Hp He. rewrite parse_Normal in Hb. injection Hb as <-.
  rewrite sequence_parse in He by assumption.
  apply list_elem_of_fmap in He as (row & -> & Hrow).
  apply list_elem_of_In, filter_In in Hrow as [Hin Hrt].
  exists row. split; [apply list_elem_of_In, Hin|].
  unfold routed_to in Hrt. apply andb_prop in Hrt as [_ Hip].
  apply bool_decide_eq_true_1 in Hip.
  split; [exact Hip|]. split; [reflexivity|].
  unfold script_of_row; simpl.
  repeat split.
  - intros x -> Hx. simpl. destruct (String.eqb_spec x ""); [contradiction|reflexivity].
  - intros [-> | ->]; reflexivity.
  - intros x -> Hx. simpl. destruct (String.eqb_spec x ""); [contradiction|reflexivity].
  - intros [-> | ->]; reflexivity.
  - intros n -> Hn. simpl. destruct (Z.eqb_spec n 0); [contradiction|reflexivity].
  - intros [-> | ->]; reflexivity.
Qed.
End ParserProperties.

(* ===================================================================== *)
(** * The loader: properties *)
(* ===================================================================== *)

Section LoaderFacts.
Variable JSON_parse : string -> completion json.

Lemma cache_hit_None now s : cache_hit now s = None <-> expired now s.
Proof.
  unfold cache_hit, expired. destruct (settingsCache s) as [c|]; [|tauto].
  destruct (Z.ltb_spec (now - timestamp c) CACHE_DURATION); split; intros; (discriminate || lia || reflexivity).
Qed.

Lemma cache_hit_Some now s c :
  settingsCache s = Some c -> (now - timestamp c < CACHE_DURATION)%Z ->
  cache_hit now s = Some (data c).
Proof.
  intros Hc Hage. unfold cache_hit. rewrite Hc.
  destruct (Z.ltb_spec (now - timestamp c) CACHE_DURATION); [reflexivity|lia].
Qed.

Lemma fetch_hit now s c :
  settingsCache s = Some c -> (now - timestamp c < CACHE_DURATION)%Z ->
  fetchAllSiteSettings now s = (s, Hit (data c)).
Proof.
  intros Hc Hage. unfold fetchAllSiteSettings.
  rewrite (cache_hit_Some _ _ _ Hc Hage). reflexivity.
Qed.

Lemma fetch_join now s p :
  expired now s -> pendingRequest s = Some p ->
  fetchAllSiteSettings now s = (s, Wait p).
Proof.
  intros He Hp. apply cache_hit_None in He.
  unfold fetchAllSiteSettings. rewrite He, Hp. reflexivity.
Qed.

Lemma fetch_new now s :
  expired now s -> pendingRequest s = None ->
  fetchAllSiteSettings now s
  = (mkLoader (settingsCache s) (Some (length (promises s))) (objects s)
              (promises s ++ [Pending]) (S (queries s)),
     Wait (length (promises s))).
Proof.
  intros He Hp. apply cache_hit_None in He.
  unfold fetchAllSiteSettings. rewrite He, Hp. reflexivity.
Qed.

(** Callers that find a request pending all join it. *)
Lemma callers_join times s p :
  Forall (fun now => expired now s) times -> pendingRequest s = Some p ->
  callers times s = (s, replicate (length times) (Wait p)).
Proof.
  intros H Hp. induction H as [|now times Hnow _ IH]; simpl.
  - reflexivity.
  - rewrite (fetch_join _ _ _ Hnow Hp), IH. reflexivity.
Qed.

(** The request body always completes normally, and touches neither the
    promises nor the query count. *)
Lemma request_body_spec out now s :
  exists d,
    snd (request_body JSON_parse out now s) = Normal d
    /\ promises (fst (request_body JSON_parse out now s)) = promises s
    /\ queries (fst (request_body JSON_parse out now s)) = queries s
    /\ pendingRequest (fst (request_body JSON_parse out now s)) = None.
Proof.
  unfold request_body.
  destruct out as [r|e]; simpl.
  - destruct (Response.error r); simpl; [eauto|].
    destruct (parseSettingsFromData _ _); simpl; eauto.
  - eauto.
Qed.

Lemma request_body_failure out now s :
  transport_failure out ->
  request_body JSON_parse out now s
  = (mkLoader (settingsCache s) None (objects s ++ [getDefaultSettings])
              (promises s) (queries s),
     Normal (length (objects s))).
Proof.
  unfold request_body, transport_failure.
  destruct out as [r|e]; simpl; [|reflexivity].
  intros [err ->]. reflexivity.
Qed.

Lemma settle_pending p out now s :
  promises s !! p = Some Pending ->
  exists d s1,
    request_body JSON_parse out now s = (s1, Normal d)
    /\ settle JSON_parse p out now s = set_promises (<[p := Fulfilled d]> (promises s)) s1
    /\ promises s1 = promises s /\ queries s1 = queries s /\ pendingRequest s1 = None.
Proof.
  intros Hp. unfold settle. rewrite Hp.
  destruct (request_body_spec out now s) as (d & Hd & Hps & Hq & Hpr).
  destruct (request_body JSON_parse out now s) as [s1 c]. simpl in *. subst c.
  exists d, s1. rewrite Hps. auto.
Qed.

Lemma settle_not_pending p out now s :
  promises s !! p <> Some Pending -> settle JSON_parse p out now s = s.
Proof.
  intros Hp. unfold settle.
  destruct (promises s !! p) as [[]|]; try reflexivity. contradiction.
Qed.

(** ** The invariant of the two slots *)

Lemma filter_is_pending_nil (l : list promise_state) :
  (forall p, l !! p <> Some Pending) -> List.filter is_pending l = [].
Proof.
  induction l as [|x l IH]; intros H; simpl; [reflexivity|].
  destruct x; simpl.
  - exfalso. apply (H 0). reflexivity.
  - apply IH. intros p. apply (H (S p)).
  - apply IH. intros p. apply (H (S p)).
Qed.

Lemma filter_is_pending_le_1 (l : list promise_state) :
  (forall p q, l !! p = Some Pending -> l !! q = Some Pending -> p = q) ->
  length (List.filter is_pending l) <= 1.
Proof.
  induction l as [|x l IH]; intros H; simpl; [lia|].
  destruct x; simpl.
  - rewrite filter_is_pending_nil; [simpl; lia|].
    intros p Hp. specialize (H 0 (S p) eq_refl Hp). discriminate.
  - apply IH. intros p q Hp Hq. specialize (H (S p) (S q) Hp Hq). lia.
  - apply IH. intros p q Hp Hq. specialize (H (S p) (S q) Hp Hq). lia.
Qed.

Lemma outstanding_0 s p : outstanding s = 0 -> promises s !! p <> Some Pending.
Proof.
  unfold outstanding. intros H Hp.
  apply length_zero_iff_nil in H.
  apply list_elem_of_lookup_2, list_elem_of_In in Hp.
  assert (Hin : In Pending (List.filter is_pending (promises s)))
    by (apply filter_In; auto).
  rewrite H in Hin. destruct Hin.
Qed.

Lemma slot_tracks_outstanding s : slot_tracks_requests s -> outstanding s <= 1.
Proof.
  intros H. apply filter_is_pending_le_1. intros p q Hp Hq.
  apply H in Hp, Hq. congruence.
Qed.

Lemma slot_tracks_step s e :
  slot_tracks_requests s -> no_clear_in_flight s e ->
  slot_tracks_requests (step JSON_parse s e).
Proof.
  intros Hs Hok. destruct e as [now | p out now |]; simpl.
  - unfold fetchAllSiteSettings.
    destruct (cache_hit now s); [exact Hs|].
    destruct (pendingRequest s) as [p|] eqn:Hp; [exact Hs|]. simpl.
    intros q Hq. simpl in *.
    apply lookup_app_Some in Hq as [Hq | [Hlen Hq]].
    + apply Hs in Hq. congruence.
    + apply list_lookup_singleton_Some in Hq as [Hq _].
      f_equal. lia.
  - assert (Hcase : promises s !! p = Some Pending \/ promises s !! p <> Some Pending).
    { destruct (promises s !! p) as [[]|]; auto; right; discriminate. }
    destruct Hcase as [Hp|Hp].
    + destruct (settle_pending p out now s Hp) as (d & s1 & _ & -> & Hps & _ & Hpr).
      intros q Hq. simpl in *.
      destruct (decide (p = q)) as [->|Hne].
      * rewrite list_lookup_insert_eq in Hq; [discriminate|].
        apply lookup_lt_Some in Hp. exact Hp.
      * rewrite list_lookup_insert_ne in Hq by assumption.
        pose proof (Hs _ Hp). pose proof (Hs _ Hq). congruence.
    + rewrite settle_not_pending by assumption. exact Hs.
  - intros q Hq. simpl in *. exfalso.
    apply (outstanding_0 s q); [apply Hok; reflexivity | exact Hq].
Qed.

Lemma slot_tracks_reachable s :
  reachable_by JSON_parse no_clear_in_flight s -> slot_tracks_requests s.
Proof.
  induction 1 as [|s e _ IH Hok].
  - intros p Hp. simpl in Hp. discriminate.
  - apply slot_tracks_step; assumption.
Qed.

Lemma reachable_run es : reachable JSON_parse (run JSON_parse es initial).
Proof.
  unfold run. induction es as [|e es IH] using rev_ind.
  - apply reach_initial.
  - rewrite foldl_app. simpl. apply reach_step; [exact IH|exact I].
Qed.

(** While a request fills the pending slot, a call leaves the loader as it
    is: it is served from the cache or joins the request. *)
Lemma fetch_keeps_slot now s p :
  pendingRequest s = Some p -> fst (fetchAllSiteSettings now s) = s.
Proof.
  intros Hp. unfold fetchAllSiteSettings.
  destruct (cache_hit now s); [reflexivity|]. rewrite Hp. reflexivity.
Qed.

Lemma undisturbed_run es s p :
  pendingRequest s = Some p ->
  undisturbed JSON_parse es s = true -> run JSON_parse es s = s.
Proof.
  intros Hp. unfold run. induction es as [|e es IH]; simpl; [reflexivity|].
  intros [He Hes]%andb_true_iff.
  assert (Hstep : step JSON_parse s e = s).
  { destruct e as [now | q out now |]; simpl.
    - apply (fetch_keeps_slot now s p Hp).
    - apply settle_not_pending. intros Hq. unfold promise in *.
      rewrite Hq in He. discriminate He.
    - discriminate He. }
  rewrite Hstep in *. apply IH, Hes.
Qed.

Lemma undisturbed_prefix es1 es2 s :
  undisturbed JSON_parse (es1 ++ es2) s = true -> undisturbed JSON_parse es1 s = true.
Proof.
  revert s. induction es1 as [|e es1 IH]; intros s; simpl; [reflexivity|].
  intros [He Hes]%andb_true_iff. rewrite He. simpl. apply IH, Hes.
Qed.

(** C1, amended.  Callers that find no valid cached bundle, the first of
    them with the pending slot empty, cause exactly one network query and
    all hold the same promise, hence receive the same bundle reference when
    the request settles, whatever its outcome: for callers one after the
    other, and also when other calls and answers for settled requests come
    in between, as long as [clearSettingsCache] is not called and no request
    in flight settles between the first of the calls and the last.  At every
    state reached without calling [clearSettingsCache] while a request is
    outstanding, at most one request is outstanding. *)
Theorem dedup_and_single_flight :
  (forall s now times out now',
     pendingRequest s = None ->
     Forall (fun t => expired t s) (now :: times) ->
     exists p s1 d,
       callers (now :: times) s = (s1, replicate (S (length times)) (Wait p))
       /\ queries s1 = S (queries s)
       /\ promises s1 !! p = Some Pending
       /\ queries (settle JSON_parse p out now' s1) = queries s1
       /\ Forall (fun f => received (settle JSON_parse p out now' s1) f = Some d)
                 (replicate (S (length times)) (Wait p)))
  /\ (forall s now es out now',
        pendingRequest s = None ->
        expired now s ->
        undisturbed JSON_parse es (step JSON_parse s (Call now)) = true ->
        exists p d,
          fetchAllSiteSettings now s = (step JSON_parse s (Call now), Wait p)
          /\ (forall es1 t es2,
                es = es1 ++ Call t :: es2 ->
                expired t (run JSON_parse (Call now :: es1) s) ->
                fetchAllSiteSettings t (run JSON_parse (Call now :: es1) s)
                = (run JSON_parse (Call now :: es1) s, Wait p))
          /\ queries (run JSON_parse (Call now :: es) s) = S (queries s)
          /\ promises (run JSON_parse (Call now :: es) s) !! p = Some Pending
          /\ queries (settle JSON_parse p out now' (run JSON_parse (Call now :: es) s))
             = S (queries s)
          /\ received (settle JSON_parse p out now' (run JSON_parse (Call now :: es) s))
                      (Wait p)
             = Some d)
  /\ (forall s, reachable_by JSON_parse no_clear_in_flight s -> outstanding s <= 1).
Proof.
  split; [|split].
  2: {
    intros s now es out now' Hp Hexp Hes.
    set (s1 := mkLoader (settingsCache s) (Some (length (promises s))) (objects s)
                        (promises s ++ [Pending]) (S (queries s))).
    assert (Hstep : step JSON_parse s (Call now) = s1).
    { simpl. rewrite (fetch_new _ _ Hexp Hp). reflexivity. }
    assert (Hrun : forall es', undisturbed JSON_parse es' s1 = true ->
                               run JSON_parse (Call now :: es') s = s1).
    { intros es' H'. unfold run. simpl foldl. fold (step JSON_parse s (Call now)).
      rewrite Hstep. apply (undisturbed_run es' s1 (length (promises s))); [reflexivity|exact H']. }
    rewrite Hstep in Hes.
    assert (Hp1 : promises s1 !! length (promises s) = Some Pending).
    { simpl. rewrite lookup_app_r by lia. rewrite Nat.sub_diag. reflexivity. }
    destruct (settle_pending (length (promises s)) out now' s1 Hp1)
      as (d & s2 & _ & Hsettle & Hps & Hq & _).
    exists (length (promises s)), d.
    rewrite (Hrun es Hes), Hstep.
    split; [apply (fetch_new _ _ Hexp Hp)|].
    split.
    { intros es1 t es2 -> Ht.
      rewrite (Hrun es1 (undisturbed_prefix _ _ _ Hes)) in *.
      apply fetch_join; [exact Ht|reflexivity]. }
    split; [reflexivity|]. split; [exact Hp1|]. split.
    - rewrite Hsettle. simpl. exact Hq.
    - rewrite Hsettle. simpl.
      rewrite list_lookup_insert_eq; [reflexivity|].
      rewrite length_app. simpl. lia. }
  - intros s now times out now' Hp Hexp.
    apply Forall_cons in Hexp as [Hnow Htimes].
    set (s1 := mkLoader (settingsCache s) (Some (length (promises s))) (objects s)
                        (promises s ++ [Pending]) (S (queries s))).
    assert (Hp1 : promises s1 !! length (promises s) = Some Pending).
    { simpl. rewrite lookup_app_r by lia. rewrite Nat.sub_diag. reflexivity. }
    destruct (settle_pending (length (promises s)) out now' s1 Hp1)
      as (d & s2 & _ & Hsettle & Hps & Hq & _).
    exists (length (promises s)), s1, d.
    split; [|split; [reflexivity|split; [exact Hp1|split]]].
    + simpl. rewrite (fetch_new _ _ Hnow Hp). fold s1.
      rewrite (callers_join times s1 (length (promises s))); [reflexivity| |reflexivity].
      exact Htimes.
    + rewrite Hsettle. simpl. exact Hq.
    + apply Forall_replicate. rewrite Hsettle. simpl.
      rewrite list_lookup_insert_eq; [reflexivity|].
      rewrite length_app. simpl. lia.
  - intros s Hs. apply slot_tracks_outstanding, slot_tracks_reachable, Hs.
Qed.

(** C2, amended.  A call that finds a cached bundle younger than five
    minutes returns it and issues no query.  A call that finds no valid
    cached bundle issues exactly one query when the pending slot is empty,
    and joins the pending request without a query otherwise.  The refresh
    operation empties both slots, so the call it makes issues exactly one
    query. *)
Theorem ttl_and_refresh s now :
  (forall c, settingsCache s = Some c ->
             (now - timestamp c < 5 * 60 * 1000)%Z ->
             fetchAllSiteSettings now s = (s, Hit (data c)))
  /\ (expired now s -> pendingRequest s = None ->
      queries (fst (fetchAllSiteSettings now s)) = S (queries s))
  /\ (expired now s -> forall p, pendingRequest s = Some p ->
      fetchAllSiteSettings now s = (s, Wait p))
  /\ (settingsCache (clearSettingsCache s) = None
      /\ pendingRequest (clearSettingsCache s) = None
      /\ queries (clearSettingsCache s) = queries s
      /\ queries (fst (refreshSettings now s)) = S (queries s)).
Proof.
  split; [|split; [|split]].
  - intros c Hc Hage. apply fetch_hit; assumption.
  - intros He Hp. rewrite (fetch_new _ _ He Hp). reflexivity.
  - intros He p Hp. apply fetch_join; assumption.
  - repeat split; reflexivity.
Qed.

(** C3.  Whatever the query does, the request's promise is fulfilled, never
    rejected.  When the query rejects or resolves with an error, the promise
    is fulfilled with a new all-defaults bundle (five default groups, four
    empty sequences), the cache slot is left as it was, the pending slot is
    emptied, and the next call that finds no valid cached bundle issues a
    new query; with an empty cache slot that is every next call. *)
Theorem loader_never_throws s p out now :
  promises s !! p = Some Pending ->
  (exists d, promises (settle JSON_parse p out now s) !! p = Some (Fulfilled d))
  /\ (transport_failure out ->
      exists d b,
        promises (settle JSON_parse p out now s) !! p = Some (Fulfilled d)
        /\ objects (settle JSON_parse p out now s) !! d = Some b
        /\ (forall g, get_group g b = group_default g)
        /\ scripts b = mkScripts [] [] [] []
        /\ settingsCache (settle JSON_parse p out now s) = settingsCache s
        /\ pendingRequest (settle JSON_parse p out now s) = None
        /\ (forall now', expired now' s ->
             queries (fst (fetchAllSiteSettings now' (settle JSON_parse p out now s)))
             = S (queries (settle JSON_parse p out now s)))
        /\ (settingsCache s = None ->
            settingsCache (settle JSON_parse p out now s) = None
            /\ forall now',
                 queries (fst (fetchAllSiteSettings now' (settle JSON_parse p out now s)))
                 = S (queries (settle JSON_parse p out now s)))).
Proof.
  intros Hp.
  destruct (settle_pending p out now s Hp) as (d & s1 & Hbody & Hsettle & Hps & Hq & Hpr).
  assert (Hlt : p < length (promises s)) by (eapply lookup_lt_Some, Hp).
  split.
  - exists d. rewrite Hsettle. simpl. apply list_lookup_insert_eq, Hlt.
  - intros Hfail. rewrite (request_body_failure _ _ _ Hfail) in Hbody.
    injection Hbody as <- <-.
    exists (length (objects s)), getDefaultSettings.
    rewrite Hsettle. simpl.
    split; [apply list_lookup_insert_eq, Hlt|].
    split; [rewrite lookup_app_r by lia; rewrite Nat.sub_diag; reflexivity|].
    split; [intros []; reflexivity|].
    split; [reflexivity|]. split; [reflexivity|]. split; [reflexivity|].
    assert (Hnext : forall now', expired now' s ->
              queries (fst (fetchAllSiteSettings now'
                              (set_promises (<[p:=Fulfilled (length (objects s))]> (promises s))
                                 (mkLoader (settingsCache s) None
                                    (objects s ++ [getDefaultSettings])
                                    (promises s) (queries s)))))
              = S (queries s)).
    { intros now' He. rewrite fetch_new; [reflexivity|exact He|reflexivity]. }
    split; [exact Hnext|].
    intros Hnone. split; [exact Hnone|].
    intros now'. apply Hnext. unfold expired. rewrite Hnone. exact I.
Qed.
End LoaderFacts.

(* ===================================================================== *)
(** * The injection effects: properties *)
(* ===================================================================== *)

Section DomFacts.










Lemma attr_is_head name v rest : attr_is name v ((name, v) :: rest) = true.
Proof. unfold attr_is. simpl. rewrite !String.eqb_refl. reflexivity. Qed.


End DomFacts.

(** ** Created nodes are tracked by their marker *)

Section Tracking.




End Tracking.

(** ** The analytics effect *)

Section AnalyticsFacts.
Variable code : string -> string -> string.













End AnalyticsFacts.

(** ** The body effect of the SEO injector *)

Section BodyFacts.
Variable parseHTML : string -> list node.



Lemma injectIntoBody_cases script (prepend : bool) doc created :
  selector_safe (CustomScript.key script) = true ->
  let key := CustomScript.key script in
  let place : node -> document -> document :=
    if prepend then insertBefore_firstChild_body else appendChild_body in
  (injectIntoBody parseHTML script prepend (doc, created) = Some (doc, created)
   /\ (nonempty (CustomScript.value script) && body_kind script = false
       \/ document_has "data-seo-setting" key doc = true))
  \/ (exists el,
        injectIntoBody parseHTML script prepend (doc, created)
        = Some (place el doc, created ++ [el])
        /\ marker "data-seo-setting" el = Some key
        /\ document_has "data-seo-setting" key doc = false
        /\ nonempty (CustomScript.value script) && body_kind script = true).
Proof.
  intros Hsafe. cbv zeta. unfold injectIntoBody, querySelector_attr, body_kind.
  rewrite Hsafe.
  destruct (nonempty (CustomScript.value script)); simpl; [|left; auto].
  destruct (document_has "data-seo-setting" (CustomScript.key script) doc); [left; auto|].
  destruct (String.eqb (CustomScript.setting_type script) "script"); simpl.
  - right. eexists. split; [reflexivity|]. repeat split.
  - destruct (String.eqb (CustomScript.setting_type script) "custom_html"); simpl.
    + right. eexists. split; [reflexivity|]. repeat split.
    + left. auto.
Qed.







End BodyFacts.

(** ** The head effect of the SEO injector *)

Section HeadFacts.
Variable parseHTML : string -> list node.

Lemma getAttribute_setAttribute name v attrs :
  getAttribute name (setAttribute name v attrs) = Some v.
Proof.
  induction attrs as [|[n x] attrs IH]; simpl.
  - rewrite String.eqb_refl. reflexivity.
  - destruct (String.eqb n name) eqn:H; simpl; rewrite H; [reflexivity|exact IH].
Qed.





Lemma injectIntoHead_cases script doc created :
  selector_safe (CustomScript.key script) = true ->
  let key := CustomScript.key script in
  let moved := map (mark_head key) (parseHTML (CustomScript.value script)) in
  (injectIntoHead parseHTML script (doc, created) = Some (doc, created)
   /\ (nonempty (CustomScript.value script) && head_kind script = false
       \/ document_has "data-head-setting" key doc = true))
  \/ (injectIntoHead parseHTML script (doc, created)
      = Some (append_head moved doc, created ++ List.filter is_element moved)
      /\ document_has "data-head-setting" key doc = false
      /\ nonempty (CustomScript.value script) && head_kind script = true).
Proof.
  intros Hsafe. cbv zeta. unfold injectIntoHead, querySelector_attr, head_kind.
  rewrite Hsafe.
  destruct (nonempty (CustomScript.value script)); simpl; [|left; auto].
  destruct (document_has "data-head-setting" (CustomScript.key script) doc); [left; auto|].
  destruct (_ || _); simpl; [right|left]; auto.
Qed.


End HeadFacts.

Section Placement.
Variable parseHTML : string -> list node.

(** [injectIntoBody] puts a new element first with [prepend] and last
    without, and leaves the head alone. *)
Lemma injectIntoBody_placement script (prepend : bool) doc created doc' created' :
  injectIntoBody parseHTML script prepend (doc, created) = Some (doc', created') ->
  head doc' = head doc
  /\ ((doc' = doc /\ created' = created)
      \/ exists el, created' = created ++ [el]
                    /\ body doc' = if prepend then el :: body doc else body doc ++ [el]).
Proof.
  unfold injectIntoBody.
  destruct (nonempty (CustomScript.value script)); simpl;
    [|intros [= <- <-]; auto].
  destruct (querySelector_attr _ _ doc) as [[|]|]; simpl;
    [intros [= <- <-]; auto| |discriminate].
  destruct (String.eqb (CustomScript.setting_type script) "script");
    [|destruct (String.eqb (CustomScript.setting_type script) "custom_html")];
    intros [= <- <-]; auto;
    (split; [destruct prepend; reflexivity|]); right; eexists;
    (split; [reflexivity|]); destruct prepend; reflexivity.
Qed.

(** [injectIntoHead] takes no placement: whatever it adds goes after the
    present children of the head. *)
Lemma injectIntoHead_appends script doc created doc' created' :
  injectIntoHead parseHTML script (doc, created) = Some (doc', created') ->
  body doc' = body doc
  /\ exists moved, head doc' = head doc ++ moved.
Proof.
  unfold injectIntoHead.
  destruct (nonempty (CustomScript.value script)); simpl;
    [|intros [= <- <-]; split; [reflexivity|exists []; rewrite app_nil_r; reflexivity]].
  destruct (querySelector_attr _ _ doc) as [[|]|]; simpl;
    [intros [= <- <-]; split; [reflexivity|exists []; rewrite app_nil_r; reflexivity]
    | |discriminate].
  destruct (_ || _); intros [= <- <-]; simpl.
  - split; [reflexivity|eauto].
  - split; [reflexivity|exists []; rewrite app_nil_r; reflexivity].
Qed.
End Placement.

(** C8.  Placement must follow the injection point, and in the body it does
    ([injectIntoBody_placement]); in the head it does not: an item tagged
    [head_start] is appended after the present children of the head, here
    after the [title] element, instead of being inserted before the first
    child. *)
Theorem head_start_item_is_appended :
  let title := Element "title" [] [Text "Home"] in
  let item := verification in
  let meta :=
    Element "meta" [("name", "verify"); ("content", "1"); ("data-head-setting", "verify")] [] in
  head_effect parseHTML_fixture false (Some (mkScripts [item] [] [] []))
              (mkDocument [] [] [title] [] [])
  = Some (mkDocument [] [] [title; meta] [] [], [meta]).
Proof. reflexivity. Qed.


Section Idempotence.
Variable code : string -> string -> string.
Variable parseHTML : string -> list node.

End Idempotence.


(* ===================================================================== *)
(** * The properties on concrete inputs *)
(* ===================================================================== *)

(** Three callers on the idle loader, then an outage: one query, one shared
    promise, one bundle; the same with an answer for a request that does
    not exist arriving between the second caller and the third. *)
Lemma dedup_and_single_flight_witness :
  (exists p s1 d,
     callers [0; 10; 20]%Z initial = (s1, replicate 3 (Wait p))
     /\ queries s1 = 1
     /\ promises s1 !! p = Some Pending
     /\ queries (settle JsonRef.parse p offline 30 s1) = queries s1
     /\ Forall (fun f => received (settle JsonRef.parse p offline 30 s1) f = Some d)
               (replicate 3 (Wait p)))
  /\ (let es := [Call 10; Settle 7 offline 15; Call 20] in
      exists p d,
        fetchAllSiteSettings 0 initial = (step JsonRef.parse initial (Call 0), Wait p)
        /\ (forall es1 t es2,
              es = es1 ++ Call t :: es2 ->
              expired t (run JsonRef.parse (Call 0 :: es1) initial) ->
              fetchAllSiteSettings t (run JsonRef.parse (Call 0 :: es1) initial)
              = (run JsonRef.parse (Call 0 :: es1) initial, Wait p))
        /\ queries (run JsonRef.parse (Call 0 :: es) initial) = S (queries initial)
        /\ promises (run JsonRef.parse (Call 0 :: es) initial) !! p = Some Pending
        /\ queries (settle JsonRef.parse p offline 30
                            (run JsonRef.parse (Call 0 :: es) initial))
           = S (queries initial)
        /\ received (settle JsonRef.parse p offline 30
                             (run JsonRef.parse (Call 0 :: es) initial)) (Wait p)
           = Some d)
  /\ outstanding (step JsonRef.parse (step JsonRef.parse initial (Call 0)) (Call 10)) <= 1.
Proof.
  destruct (dedup_and_single_flight JsonRef.parse) as (Hdedup & Hbetween & Hflight).
  split; [|split].
  - apply (Hdedup initial 0%Z [10; 20]%Z offline 30%Z); [reflexivity|].
    repeat constructor.
  - apply (Hbetween initial 0%Z [Call 10; Settle 7 offline 15; Call 20] offline 30%Z);
      reflexivity.
  - apply Hflight.
    repeat (apply reach_step; [|discriminate]). apply reach_initial.
Defined.

(** C1 as stated fails: a call, [clearSettingsCache] while its request is in
    flight, and a second call leave two requests outstanding.  Both callers
    found no valid cached bundle and called before the first request
    settled; two queries were issued, the callers hold different promises
    and receive different bundles. *)
Lemma dedup_counterexample :
  let s := run JsonRef.parse [Call 0; Clear; Call 1] initial in
  (reachable JsonRef.parse s /\ outstanding s = 2)
  /\ queries s = 2
  /\ expired 0 initial
  /\ expired 1 (run JsonRef.parse [Call 0; Clear] initial)
  /\ promises (run JsonRef.parse [Call 0; Clear] initial) !! 0 = Some Pending
  /\ snd (fetchAllSiteSettings 0 initial) = Wait 0
  /\ snd (fetchAllSiteSettings 1 (run JsonRef.parse [Call 0; Clear] initial)) = Wait 1
  /\ (let s' := run JsonRef.parse [Settle 0 offline 2; Settle 1 offline 3] s in
      received s' (Wait 0) = Some 0 /\ received s' (Wait 1) = Some 1).
Proof.
  split; [split; [apply reachable_run|reflexivity]|].
  repeat split; try reflexivity; exact I.
Qed.

(** A bundle cached at time 1000: served at 2000, fetched again at 301000. *)
Lemma ttl_and_refresh_witness :
  let s := mkLoader (Some (mkCache 0 1000)) None [getDefaultSettings] [Fulfilled 0] 1 in
  fetchAllSiteSettings 2000 s = (s, Hit 0)
  /\ queries (fst (fetchAllSiteSettings 301000 s)) = 2
  /\ fetchAllSiteSettings 301000 (set_pendingRequest (Some 1) s)
     = (set_pendingRequest (Some 1) s, Wait 1)
  /\ queries (fst (refreshSettings 2000 s)) = 2.
Proof.
  cbv zeta.
  set (s := mkLoader (Some (mkCache 0 1000)) None [getDefaultSettings] [Fulfilled 0] 1).
  split; [|split; [|split]].
  - apply (proj1 (ttl_and_refresh s 2000) (mkCache 0 1000)); [reflexivity|reflexivity].
  - apply (proj1 (proj2 (ttl_and_refresh s 301000))); [|reflexivity].
    unfold expired, CACHE_DURATION. simpl. lia.
  - apply (proj1 (proj2 (proj2 (ttl_and_refresh (set_pendingRequest (Some 1) s) 301000))));
      [|reflexivity].
    unfold expired, CACHE_DURATION. simpl. lia.
  - apply (proj2 (proj2 (proj2 (ttl_and_refresh s 2000)))).
Defined.

(** C2 as stated fails: the cache entry of time 0 has expired, a first call
    at 300000 has a request in flight, and the call at 300001 joins it
    without a query of its own. *)
Lemma ttl_counterexample :
  let s := run JsonRef.parse
             [Call 0; Settle 0 (Replied (Response.mk (Some []) None)) 0; Call 300000]
             initial in
  reachable JsonRef.parse s
  /\ settingsCache s = Some (mkCache 0 0)
  /\ (CACHE_DURATION <= 300001 - 0)%Z
  /\ queries (fst (fetchAllSiteSettings 300001 s)) = queries s.
Proof.
  split; [apply reachable_run|]. split; [reflexivity|]. split; [|reflexivity].
  unfold CACHE_DURATION. lia.
Qed.

(** The first request of the loader meets an outage. *)
Lemma loader_never_throws_witness :
  let s := fst (fetchAllSiteSettings 0 initial) in
  let s' := settle JsonRef.parse 0 offline 5 s in
  (exists d, promises s' !! 0 = Some (Fulfilled d))
  /\ exists d b,
       promises s' !! 0 = Some (Fulfilled d)
       /\ objects s' !! d = Some b
       /\ (forall g, get_group g b = group_default g)
       /\ scripts b = mkScripts [] [] [] []
       /\ settingsCache s' = settingsCache s
       /\ pendingRequest s' = None
       /\ (forall now', expired now' s ->
            queries (fst (fetchAllSiteSettings now' s')) = S (queries s'))
       /\ (settingsCache s = None ->
           settingsCache s' = None
           /\ forall now', queries (fst (fetchAllSiteSettings now' s')) = S (queries s')).
Proof.
  cbv zeta.
  destruct (loader_never_throws JsonRef.parse (fst (fetchAllSiteSettings 0 initial))
              0 offline 5 eq_refl) as [Hfulfilled Hfailure].
  split; [exact Hfulfilled|]. apply Hfailure. exact I.
Defined.

(** A stored [settings_seo] of [{ meta_title: X }]: the title is [X], the
    other fields keep their defaults. *)
Lemma merge_over_default_witness :
  exists b,
    parseSettingsFromData JsonRef.parse [group_row "settings_seo" (Some meta_title_X)]
    = Normal b
    /\ seo b !! "meta_title" = Some (JStr "X")
    /\ seo b !! "robots" = DEFAULT_SEO !! "robots"
    /\ seo b !! "canonical_url" = DEFAULT_SEO !! "canonical_url".
Proof.
  destruct (merge_over_default JsonRef.parse [] []
              (group_row "settings_seo" (Some meta_title_X)) Seo meta_title_X
              {[ "meta_title" := JStr "X" ]})
    as (b & Hb & _ & Hfields).
  - reflexivity.
  - reflexivity.
  - intros H. vm_compute in H. discriminate H.
  - vm_compute. reflexivity.
  - constructor.
  - exists b. split; [exact Hb|]. split; [|split].
    + apply (proj1 (Hfields "meta_title")). vm_compute. reflexivity.
    + apply (proj2 (Hfields "robots")). vm_compute. reflexivity.
    + apply (proj2 (Hfields "canonical_url")). vm_compute. reflexivity.
Defined.

(** A corrupt [settings_analytics] between valid [settings_seo] and
    [settings_general] rows. *)
Lemma parser_total_and_isolating_witness :
  exists b b',
    parseSettingsFromData JsonRef.parse
      [group_row "settings_seo" (Some meta_title_X);
       group_row "settings_analytics" (Some "{bad");
       group_row "settings_general" (Some site_name_SK)] = Normal b
    /\ parseSettingsFromData JsonRef.parse
         [group_row "settings_seo" (Some meta_title_X);
          group_row "settings_general" (Some site_name_SK)] = Normal b'
    /\ (forall g', g' <> Analytics -> get_group g' b = get_group g' b')
    /\ scripts b = scripts b'
    /\ get_group Analytics b = DEFAULT_ANALYTICS.
Proof.
  destruct (proj2 (parser_total_and_isolating JsonRef.parse)
              [group_row "settings_seo" (Some meta_title_X)]
              [group_row "settings_general" (Some site_name_SK)]
              (group_row "settings_analytics" (Some "{bad"))
              Analytics "{bad" SyntaxError)
    as (b & b' & Hb & Hb' & Hothers & Hscripts & Hown).
  - reflexivity.
  - reflexivity.
  - vm_compute. reflexivity.
  - exists b, b'. repeat (split; [assumption|]).
    apply Hown. repeat constructor; discriminate.
Defined.

(** C6 as stated fails: a fully specified row whose key is not reserved but
    starts with [settings_] is appended nowhere. *)
Lemma routing_counterexample :
  let row := Row.mk "settings_banner" (Some "console.log(1)") (Some "script")
                    (Some "head_end") None None None in
  reserved (Row.key row) = None
  /\ fully_specified row = true
  /\ parseSettingsFromData JsonRef.parse [row] = Normal getDefaultSettings
  /\ head_end (scripts getDefaultSettings) = [].
Proof. repeat split. Qed.

(** A custom row without injection point and a [settings_general] row
    without value are dropped. *)
Lemma dropped_rows_witness :
  parseSettingsFromData JsonRef.parse
    [group_row "settings_seo" (Some meta_title_X);
     Row.mk "promo" (Some "console.log(1)") (Some "script") None None None None;
     group_row "settings_general" None]
  = parseSettingsFromData JsonRef.parse [group_row "settings_seo" (Some meta_title_X)].
Proof.
  etrans.
  - apply (proj1 (dropped_rows JsonRef.parse
                    [group_row "settings_seo" (Some meta_title_X)]
                    [group_row "settings_general" None]
                    (Row.mk "promo" (Some "console.log(1)") (Some "script")
                            None None None None))).
    left. split; reflexivity.
  - apply (proj1 (dropped_rows JsonRef.parse
                    [group_row "settings_seo" (Some meta_title_X)] []
                    (group_row "settings_general" None))).
    right. exists General. split; [reflexivity|]. split; [reflexivity|].
    repeat constructor; discriminate.
Defined.

(** C7 as stated fails: a [settings_seo] row without value after a valid one
    resets the group to its defaults. *)
Lemma dropped_rows_counterexample :
  let before := [group_row "settings_seo" (Some meta_title_X)] in
  let row := group_row "settings_seo" None in
  reserved (Row.key row) = Some Seo
  /\ truthy (Row.value row) = false
  /\ (exists b, parseSettingsFromData JsonRef.parse before = Normal b
                /\ seo b !! "meta_title" = Some (JStr "X"))
  /\ (exists b, parseSettingsFromData JsonRef.parse (before ++ [row]) = Normal b
                /\ seo b !! "meta_title" = Some (JStr "Supermal Karawaci"))
  /\ parseSettingsFromData JsonRef.parse (before ++ [row])
     <> parseSettingsFromData JsonRef.parse before.
Proof.
  cbv zeta. split; [reflexivity|]. split; [reflexivity|].
  split; [eexists; split; [vm_compute; reflexivity|vm_compute; reflexivity]|].
  split; [eexists; split; [vm_compute; reflexivity|vm_compute; reflexivity]|].
  intros H.
  apply (f_equal (fun c => match c with
                           | Normal b => seo b !! "meta_title"
                           | Throw _ => None
                           end)) in H.
  vm_compute in H. discriminate H.
Qed.

(** A row whose id and display name are empty strings. *)
Lemma script_field_defaults_witness :
  exists row,
    row ∈ [custom_row "promo" (Some "body_end")]
    /\ CustomScript.id (script_of_row row) = "promo"
    /\ CustomScript.display_name (script_of_row row) = "promo"
    /\ CustomScript.sort_order (script_of_row row) = 0%Z.
Proof.
  destruct (script_field_defaults JsonRef.parse [custom_row "promo" (Some "body_end")]
              (set_scripts (mkScripts [] [] [] [script_of_row (custom_row "promo" (Some "body_end"))])
                           getDefaultSettings)
              "body_end" (script_of_row (custom_row "promo" (Some "body_end"))))
    as (row & Hin & _ & _ & _ & Hid & _ & Hname & _ & Horder).
  - vm_compute. reflexivity.
  - unfold injection_points. rewrite !elem_of_cons. auto.
  - apply list_elem_of_here.
  - exists row. split; [exact Hin|].
    apply list_elem_of_singleton in Hin. subst row.
    split; [|split]; reflexivity.
Defined.

(** C10 as stated fails: the row's id and display name are present, as empty
    strings, and the entity takes the key for both. *)
Lemma script_field_defaults_counterexample :
  let row := custom_row "promo" (Some "body_end") in
  Row.id row = Some "" /\ Row.display_name row = Some ""
  /\ exists e,
       parseSettingsFromData JsonRef.parse [row]
       = Normal (set_scripts (mkScripts [] [] [] [e]) getDefaultSettings)
       /\ CustomScript.id e = "promo" /\ CustomScript.id e <> ""
       /\ CustomScript.display_name e = "promo" /\ CustomScript.display_name e <> "".
Proof.
  cbv zeta. split; [reflexivity|]. split; [reflexivity|].
  eexists. split; [vm_compute; reflexivity|]. simpl.
  repeat split; discriminate.
Qed.



(** Markup without an element node carries no marker: the head effect adds
    it again on every invocation. *)
Example head_text_item_is_repeated :
  let item := CustomScript.mk "2" "note" "Note" "hello" "meta_tag" "head_end" 0 in
  let sc := mkScripts [] [item] [] [] in
  exists d1,
    head_effect parseHTML_fixture false (Some sc) empty_document = Some (d1, [])
    /\ head d1 = [Text "hello"]
    /\ exists d2,
         head_effect parseHTML_fixture false (Some sc) d1 = Some (d2, [])
         /\ head d2 = [Text "hello"; Text "hello"].
Proof. eexists. repeat split. eexists. repeat split. Qed.

(* ===================================================================== *)
(** * The loader: bookkeeping, the success path and stable references *)
(* ===================================================================== *)

Section LoaderMore.
Variable JSON_parse : string -> completion json.

(** The request body, case by case: it always allocates one bundle and
    returns it; only a reply without error writes the cache. *)
Lemma request_body_cases out now s :
  exists b cache,
    request_body JSON_parse out now s
    = (mkLoader cache None (objects s ++ [b]) (promises s) (queries s),
       Normal (length (objects s)))
    /\ ((transport_failure out /\ b = getDefaultSettings /\ cache = settingsCache s)
        \/ (exists r, out = Replied r /\ Response.error r = None
                      /\ parseSettingsFromData JSON_parse (default [] (Response.data r))
                         = Normal b
                      /\ cache = Some (mkCache (length (objects s)) now))).
Proof.
  destruct out as [r|e].
  - destruct (Response.error r) as [err|] eqn:Herr.
    + exists getDefaultSettings, (settingsCache s). split.
      * unfold request_body. rewrite Herr. reflexivity.
      * left. simpl. rewrite Herr. eauto.
    + eexists _, _. split.
      * unfold request_body. rewrite Herr, parse_Normal. reflexivity.
      * right. exists r. rewrite parse_Normal. auto.
  - exists getDefaultSettings, (settingsCache s). split; [reflexivity|].
    left. simpl. auto.
Qed.

Lemma settle_cases p out now s :
  promises s !! p = Some Pending ->
  exists b cache,
    settle JSON_parse p out now s
    = mkLoader cache None (objects s ++ [b])
               (<[p := Fulfilled (length (objects s))]> (promises s)) (queries s)
    /\ ((transport_failure out /\ b = getDefaultSettings /\ cache = settingsCache s)
        \/ (exists r, out = Replied r /\ Response.error r = None
                      /\ parseSettingsFromData JSON_parse (default [] (Response.data r))
                         = Normal b
                      /\ cache = Some (mkCache (length (objects s)) now))).
Proof.
  intros Hp. destruct (request_body_cases out now s) as (b & cache & Hbody & Hcases).
  exists b, cache. split; [|exact Hcases].
  unfold settle. rewrite Hp, Hbody. reflexivity.
Qed.

Lemma loader_wf_initial : loader_wf initial.
Proof. split; simpl; try discriminate; auto; intros p; rewrite lookup_nil; discriminate. Qed.

Lemma loader_wf_fetch now s :
  loader_wf s -> loader_wf (fst (fetchAllSiteSettings now s)).
Proof.
  intros H. unfold fetchAllSiteSettings.
  destruct (cache_hit now s); [exact H|].
  destruct (pendingRequest s) as [p|] eqn:Hp; [exact H|].
  destruct H as [Hq Hslot Hrej Hcache Hful]. split; simpl.
  - rewrite length_app. simpl. lia.
  - intros p [= <-]. rewrite lookup_app_r by lia. rewrite Nat.sub_diag. reflexivity.
  - intros p e Hl. apply lookup_app_Some in Hl as [Hl | [_ Hl]].
    + exact (Hrej p e Hl).
    + apply list_lookup_singleton_Some in Hl as [_ Hl]. discriminate.
  - exact Hcache.
  - intros p d Hl. apply lookup_app_Some in Hl as [Hl | [_ Hl]].
    + exact (Hful p d Hl).
    + apply list_lookup_singleton_Some in Hl as [_ Hl]. discriminate.
Qed.

Lemma loader_wf_settle p out now s :
  loader_wf s -> loader_wf (settle JSON_parse p out now s).
Proof.
  intros H.
  assert (Hcase : promises s !! p = Some Pending \/ promises s !! p <> Some Pending).
  { destruct (promises s !! p) as [[]|]; auto; right; discriminate. }
  destruct Hcase as [Hp|Hp]; [|rewrite settle_not_pending by assumption; exact H].
  destruct (settle_cases p out now s Hp) as (b & cache & -> & Hcases).
  destruct H as [Hq Hslot Hrej Hcache Hful].
  assert (Hlt : p < length (promises s)) by (eapply lookup_lt_Some, Hp).
  split; simpl.
  - rewrite length_insert. exact Hq.
  - discriminate.
  - intros q e Hl. destruct (decide (p = q)) as [->|Hne].
    + rewrite list_lookup_insert_eq in Hl by assumption. discriminate.
    + rewrite list_lookup_insert_ne in Hl by assumption. exact (Hrej q e Hl).
  - intros c Hc. rewrite length_app. simpl.
    destruct Hcases as [(_ & _ & ->) | (r & _ & _ & _ & ->)].
    + specialize (Hcache c Hc). lia.
    + injection Hc as <-. simpl. lia.
  - intros q d Hl. rewrite length_app. simpl. destruct (decide (p = q)) as [->|Hne].
    + rewrite list_lookup_insert_eq in Hl by assumption. injection Hl as <-. lia.
    + rewrite list_lookup_insert_ne in Hl by assumption. specialize (Hful q d Hl). lia.
Qed.

Lemma loader_wf_clear s : loader_wf s -> loader_wf (clearSettingsCache s).
Proof.
  intros [Hq Hslot Hrej Hcache Hful]. split; simpl; auto; discriminate.
Qed.

Lemma loader_wf_step s e : loader_wf s -> loader_wf (step JSON_parse s e).
Proof.
  intros H. destruct e; simpl.
  - apply loader_wf_fetch, H.
  - apply loader_wf_settle, H.
  - apply loader_wf_clear, H.
Qed.

Lemma loader_wf_reachable s : reachable JSON_parse s -> loader_wf s.
Proof.
  induction 1 as [|s e _ IH _]; [apply loader_wf_initial|apply loader_wf_step, IH].
Qed.

(** X1.  In every state the loader reaches, one query has been issued per
    request, the pending slot names a request that has not settled, no
    request has rejected, and every reference held by the cache slot or by
    a settled request is to an allocated bundle. *)
Theorem loader_bookkeeping s :
  reachable JSON_parse s ->
  queries s = length (promises s)
  /\ (forall p, pendingRequest s = Some p -> promises s !! p = Some Pending)
  /\ (forall p e, promises s !! p <> Some (Rejected e))
  /\ (forall c, settingsCache s = Some c -> is_Some (objects s !! data c))
  /\ (forall p d, promises s !! p = Some (Fulfilled d) -> is_Some (objects s !! d)).
Proof.
  intros [Hq Hslot Hrej Hcache Hful]%loader_wf_reachable.
  repeat split; auto.
  - intros c Hc. apply lookup_lt_is_Some_2, Hcache, Hc.
  - intros p d Hp. apply lookup_lt_is_Some_2, (Hful p d Hp).
Qed.

(** ** Outstanding requests and calls of [clearSettingsCache] *)

Lemma outstanding_app_pending ps :
  length (List.filter is_pending (ps ++ [Pending])) = S (length (List.filter is_pending ps)).
Proof. rewrite List.filter_app, length_app. simpl. lia. Qed.

Lemma outstanding_insert ps p st :
  ps !! p = Some Pending -> is_pending st = false ->
  S (length (List.filter is_pending (<[p := st]> ps))) = length (List.filter is_pending ps).
Proof.
  revert p. induction ps as [|x ps IH]; intros p Hp Hst; [discriminate|].
  destruct p as [|p]; simpl in *.
  - injection Hp as ->. simpl. rewrite Hst. reflexivity.
  - destruct (is_pending x); simpl; rewrite <- (IH p Hp Hst); reflexivity.
Qed.

Lemma outstanding_step s e c :
  outstanding s <= c + slot_count s ->
  outstanding (step JSON_parse s e)
  <= (c + match e with Clear => 1 | _ => 0 end) + slot_count (step JSON_parse s e).
Proof.
  unfold outstanding, slot_count. intros H. destruct e as [now | p out now |]; simpl.
  - unfold fetchAllSiteSettings.
    destruct (cache_hit now s); [simpl; lia|].
    destruct (pendingRequest s) as [p|] eqn:Hp; simpl; [rewrite Hp; lia|].
    rewrite outstanding_app_pending. lia.
  - assert (Hcase : promises s !! p = Some Pending \/ promises s !! p <> Some Pending).
    { destruct (promises s !! p) as [[]|]; auto; right; discriminate. }
    destruct Hcase as [Hp|Hp]; [|rewrite settle_not_pending by assumption; lia].
    destruct (settle_cases p out now s Hp) as (b & cache & -> & _). simpl.
    pose proof (outstanding_insert (promises s) p (Fulfilled (length (objects s))) Hp eq_refl).
    unfold promise in *. destruct (pendingRequest s); lia.
  - destruct (pendingRequest s); lia.
Qed.

Lemma clears_snoc es e :
  clears (es ++ [e]) = clears es + match e with Clear => 1 | _ => 0 end.
Proof.
  unfold clears. rewrite List.filter_app, length_app. destruct e; reflexivity.
Qed.

(** X2.  After any sequence of calls, answers and calls of
    [clearSettingsCache], the requests still in flight are at most one more
    than the calls of [clearSettingsCache]. *)
Theorem outstanding_bounded_by_clears es :
  outstanding (run JSON_parse es initial) <= 1 + clears es.
Proof.
  assert (H : outstanding (run JSON_parse es initial)
              <= clears es + slot_count (run JSON_parse es initial)).
  { unfold run. induction es as [|e es IH] using rev_ind.
    - cbv. lia.
    - rewrite foldl_app, clears_snoc. simpl. apply outstanding_step, IH. }
  unfold slot_count in H. destruct (pendingRequest _); lia.
Qed.

(** X3.  A reply without error to a request in flight settles it with the
    bundle parsed from the rows (no rows when [data] is null), and caches
    that bundle with the time of the reply: every call less than five
    minutes later returns it without a query. *)
Theorem success_fills_cache s p r now :
  promises s !! p = Some Pending ->
  Response.error r = None ->
  exists d b,
    parseSettingsFromData JSON_parse (default [] (Response.data r)) = Normal b
    /\ promises (settle JSON_parse p (Replied r) now s) !! p = Some (Fulfilled d)
    /\ objects (settle JSON_parse p (Replied r) now s) !! d = Some b
    /\ settingsCache (settle JSON_parse p (Replied r) now s) = Some (mkCache d now)
    /\ forall now', (now' - now < 5 * 60 * 1000)%Z ->
         fetchAllSiteSettings now' (settle JSON_parse p (Replied r) now s)
         = (settle JSON_parse p (Replied r) now s, Hit d).
Proof.
  intros Hp Herr.
  destruct (settle_cases p (Replied r) now s Hp) as (b & cache & Hs & Hcases).
  destruct Hcases as [([err Hfail] & _) | (r' & [= <-] & _ & Hparse & ->)].
  { simpl in Hfail. congruence. }
  exists (length (objects s)), b. rewrite Hs. simpl.
  split; [exact Hparse|].
  split; [apply list_lookup_insert_eq; eapply lookup_lt_Some, Hp|].
  split; [rewrite lookup_app_r by lia; rewrite Nat.sub_diag; reflexivity|].
  split; [reflexivity|].
  intros now' Hage. apply (fetch_hit now' _ (mkCache (length (objects s)) now)); auto.
Qed.

(** ** References stay valid *)

Lemma step_keeps s e :
  (forall d b, objects s !! d = Some b -> objects (step JSON_parse s e) !! d = Some b)
  /\ (forall f d, received s f = Some d -> received (step JSON_parse s e) f = Some d).
Proof.
  unfold promise in *. destruct e as [now | p out now |]; simpl.
  - unfold fetchAllSiteSettings.
    destruct (cache_hit now s); [auto|].
    destruct (pendingRequest s); [auto|]. simpl. split; [auto|].
    intros [d'|q] d; simpl; [auto|].
    destruct (promises s !! q) as [[]|] eqn:Hq; try discriminate.
    intros [= <-]. rewrite (lookup_app_l_Some _ _ _ _ Hq). reflexivity.
  - assert (Hcase : promises s !! p = Some Pending \/ promises s !! p <> Some Pending).
    { destruct (promises s !! p) as [[]|]; auto; right; discriminate. }
    destruct Hcase as [Hp|Hp]; [|rewrite settle_not_pending by assumption; auto].
    destruct (settle_cases p out now s Hp) as (b & cache & -> & _). simpl. split.
    + intros d b' Hd. apply lookup_app_l_Some, Hd.
    + intros [d'|q] d; simpl; [auto|].
      destruct (promises s !! q) as [[]|] eqn:Hq; try discriminate.
      intros [= <-]. rewrite list_lookup_insert_ne by congruence.
      unfold promise in *. rewrite Hq. reflexivity.
  - auto.
Qed.

(** X4.  A bundle that a caller has received stays what it is: no later
    call, answer or [clearSettingsCache] changes what the caller's promise
    settled to, nor the bundle behind it. *)
Theorem received_bundle_is_stable es s f d b :
  received s f = Some d ->
  objects s !! d = Some b ->
  received (run JSON_parse es s) f = Some d
  /\ objects (run JSON_parse es s) !! d = Some b.
Proof.
  unfold run. revert s. induction es as [|e es IH]; intros s Hf Hd; simpl; [auto|].
  destruct (step_keeps s e) as [Hobj Hrec]. apply IH; auto.
Qed.
End LoaderMore.

(* ===================================================================== *)
(** * The provider *)
(* ===================================================================== *)

Section ProviderFacts.
Variable JSON_parse : string -> completion json.

Lemma objects_fetch now s : objects (fst (fetchAllSiteSettings now s)) = objects s.
Proof.
  unfold fetchAllSiteSettings. destruct (cache_hit now s); [reflexivity|].
  destruct (pendingRequest s); reflexivity.
Qed.

Lemma objects_settle p out now s :
  length (objects s) <= length (objects (settle JSON_parse p out now s)).
Proof.
  assert (Hcase : promises s !! p = Some Pending \/ promises s !! p <> Some Pending).
  { destruct (promises s !! p) as [[]|]; auto; right; discriminate. }
  destruct Hcase as [Hp|Hp]; [|rewrite settle_not_pending by assumption; lia].
  destruct (settle_cases JSON_parse p out now s Hp) as (b & cache & -> & _). simpl.
  rewrite length_app. lia.
Qed.

Lemma fetch_Hit now s d :
  loader_wf s -> snd (fetchAllSiteSettings now s) = Hit d -> d < length (objects s).
Proof.
  intros Hwf. unfold fetchAllSiteSettings, cache_hit.
  destruct (settingsCache s) as [c|] eqn:Hc.
  - destruct (_ <? _)%Z; simpl.
    + intros [= <-]. apply (wf_cache s Hwf c Hc).
    + destruct (pendingRequest s); discriminate.
  - destruct (pendingRequest s); discriminate.
Qed.

Lemma promises_fetch now s :
  length (promises s) <= length (promises (fst (fetchAllSiteSettings now s))).
Proof.
  unfold fetchAllSiteSettings. destruct (cache_hit now s); [simpl; lia|].
  destruct (pendingRequest s); simpl; [lia|]. rewrite length_app. lia.
Qed.

Lemma promises_settle p out now s :
  length (promises (settle JSON_parse p out now s)) = length (promises s).
Proof.
  assert (Hcase : promises s !! p = Some Pending \/ promises s !! p <> Some Pending).
  { destruct (promises s !! p) as [[]|]; auto; right; discriminate. }
  destruct Hcase as [Hp|Hp]; [|rewrite settle_not_pending by assumption; lia].
  destruct (settle_cases JSON_parse p out now s Hp) as (b & cache & -> & _). simpl.
  apply length_insert.
Qed.

Lemma fetch_Wait now s q :
  loader_wf s -> snd (fetchAllSiteSettings now s) = Wait q ->
  q < length (promises (fst (fetchAllSiteSettings now s))).
Proof.
  intros Hwf. unfold fetchAllSiteSettings.
  destruct (cache_hit now s); [discriminate|].
  destruct (pendingRequest s) as [p|] eqn:Hp; simpl.
  - intros [= <-]. eapply lookup_lt_Some, (wf_slot s Hwf p Hp).
  - intros [= <-]. rewrite length_app. simpl. lia.
Qed.

Lemma provider_wf_load now l p :
  loader_wf l -> provider_wf l p ->
  provider_wf (fst (loadSettings now (l, p))) (snd (loadSettings now (l, p))).
Proof.
  intros Hl [Herr Hloaded Hset Hloads Hwaits]. unfold loadSettings.
  pose proof (objects_fetch now l) as Hobj.
  pose proof (fetch_Hit now l) as Hhit.
  pose proof (fetch_Wait now l) as Hwait.
  pose proof (promises_fetch now l) as Hlen.
  destruct (fetchAllSiteSettings now l) as [l' f]. simpl in *.
  split; simpl; rewrite ?Hobj; auto; try discriminate.
  - intros d Hd. apply elem_of_app in Hd as [Hd|Hd]; [auto|].
    apply list_elem_of_singleton in Hd. symmetry in Hd. auto.
  - intros q Hq. apply elem_of_app in Hq as [Hq|Hq].
    + specialize (Hwaits q Hq). lia.
    + apply list_elem_of_singleton in Hq. symmetry in Hq. auto.
Qed.

Lemma provider_wf_clear l p : provider_wf l p -> provider_wf (clearSettingsCache l) p.
Proof. intros [Herr Hloaded Hset Hloads Hwaits]. split; auto. Qed.

Lemma provider_wf_resume i l p :
  loader_wf l -> provider_wf l p ->
  provider_wf (fst (resume i (l, p))) (snd (resume i (l, p))).
Proof.
  intros Hl Hp. pose proof Hp as [Herr Hloaded Hset Hloads Hwaits]. unfold resume.
  destruct (Provider.loads p !! i) as [f|] eqn:Hi; [|exact Hp].
  assert (Hsub : forall d, Hit d ∈ delete i (Provider.loads p) -> d < length (objects l)).
  { intros d Hd. apply Hloads. eapply list_elem_of_delete_inv, Hd. }
  assert (Hsubw : forall q, Wait q ∈ delete i (Provider.loads p) -> q < length (promises l)).
  { intros q Hq. apply Hwaits. eapply list_elem_of_delete_inv, Hq. }
  assert (Hin : f ∈ Provider.loads p) by (eapply list_elem_of_lookup_2, Hi).
  destruct f as [d|q]; simpl.
  - split; simpl.
    + exact Herr.
    + eauto.
    + intros d' [= <-]. auto.
    + exact Hsub.
    + exact Hsubw.
  - destruct (promises l !! q) as [[|d|e]|] eqn:Hq; try exact Hp.
    + split; simpl.
      * exact Herr.
      * eauto.
      * intros d' [= <-]. apply (wf_fulfilled l Hl q d Hq).
      * exact Hsub.
      * exact Hsubw.
    + destruct (wf_no_reject l Hl q e Hq).
Qed.

Lemma provider_wf_settle q out now l p :
  provider_wf l p -> provider_wf (settle JSON_parse q out now l) p.
Proof.
  intros [Herr Hloaded Hset Hloads Hwaits]. pose proof (objects_settle q out now l).
  split; auto.
  - intros d Hd. specialize (Hset d Hd). lia.
  - intros d Hd. specialize (Hloads d Hd). lia.
  - intros q' Hq. rewrite promises_settle. auto.
Qed.

Lemma loader_wf_load now l p :
  loader_wf l -> loader_wf (fst (loadSettings now (l, p))).
Proof.
  intros Hl. unfold loadSettings. pose proof (loader_wf_fetch now l Hl).
  destruct (fetchAllSiteSettings now l). assumption.
Qed.

Lemma provider_invariant st :
  provider_reachable JSON_parse st -> loader_wf (fst st) /\ provider_wf (fst st) (snd st).
Proof.
  induction 1 as [|[l p] e _ [Hl Hp]].
  - split; [apply loader_wf_initial|]. split; simpl; auto; try discriminate.
    + intros d Hd. apply elem_of_nil in Hd. destruct Hd.
    + intros q Hq. apply elem_of_nil in Hq. destruct Hq.
  - cbn [fst snd] in Hl, Hp. destruct e as [now | now | i | q out now]; cbn [provider_step].
    + split; [apply loader_wf_load, Hl|apply provider_wf_load; assumption].
    + unfold provider_refresh. cbn [fst snd].
      split; [apply loader_wf_load, loader_wf_clear, Hl|].
      apply provider_wf_load; [apply loader_wf_clear|apply provider_wf_clear]; assumption.
    + split; [|apply provider_wf_resume; assumption].
      unfold resume. destruct (Provider.loads p !! i) as [f|]; [|exact Hl].
      destruct (awaited l f) as [[]|]; exact Hl.
    + cbn [fst snd]. split; [apply loader_wf_settle, Hl|apply provider_wf_settle, Hp].
Qed.

(** X5.  When the provider is the only caller of the loader, its [error]
    state is never set, and whenever [isLoading] is false its [settings]
    hold a bundle. *)
Theorem provider_never_fails l p :
  provider_reachable JSON_parse (l, p) ->
  Provider.error p = None
  /\ (Provider.isLoading p = false ->
      exists d b, Provider.settings p = Some d /\ objects l !! d = Some b)
  /\ (forall d, Provider.settings p = Some d -> is_Some (objects l !! d)).
Proof.
  intros [Hl [Herr Hloaded Hset Hloads Hwaits]]%provider_invariant. simpl in *.
  split; [exact Herr|]. split.
  - intros Hload. destruct (Hloaded Hload) as [d Hd].
    destruct (lookup_lt_is_Some_2 (objects l) d (Hset d Hd)) as [b Hb]. eauto.
  - intros d Hd. apply lookup_lt_is_Some_2, Hset, Hd.
Qed.

(** X6.  A suspended [loadSettings] of the provider that waits on a
    request resumes, once that request is answered in whatever way, by
    storing a bundle, leaving [error] null and ending the loading state. *)
Theorem answered_load_resumes l p i q out now :
  provider_reachable JSON_parse (l, p) ->
  Provider.loads p !! i = Some (Wait q) ->
  exists d b,
    objects (settle JSON_parse q out now l) !! d = Some b
    /\ resume i (provider_step JSON_parse (l, p) (Answered q out now))
       = (settle JSON_parse q out now l,
          Provider.mk (Some d) false None (delete i (Provider.loads p))).
Proof.
  intros Hreach Hi.
  pose proof (provider_invariant _ Hreach) as [Hl Hp]. simpl in Hl, Hp.
  pose proof (provider_invariant _ (provider_reach_step JSON_parse _ (Answered q out now) Hreach))
    as [Hl' Hp']. cbn [provider_step fst snd] in Hl', Hp'.
  assert (Hq : q < length (promises l)).
  { apply (wf_waits l p Hp). eapply list_elem_of_lookup_2, Hi. }
  assert (Hful : exists d, promises (settle JSON_parse q out now l) !! q = Some (Fulfilled d)).
  { destruct (promises l !! q) as [[|d|e]|] eqn:Hst.
    - destruct (settle_cases JSON_parse q out now l Hst) as (b & cache & -> & _).
      simpl. eexists. apply list_lookup_insert_eq, Hq.
    - rewrite settle_not_pending by (rewrite Hst; discriminate). eauto.
    - destruct (wf_no_reject l Hl q e Hst).
    - apply lookup_ge_None in Hst. lia. }
  destruct Hful as [d Hd].
  destruct (lookup_lt_is_Some_2 _ _ (wf_fulfilled _ Hl' q d Hd)) as [b Hb].
  exists d, b. split; [exact Hb|].
  cbn [provider_step fst snd]. unfold resume. rewrite Hi. simpl.
  rewrite Hd. rewrite (wf_error l p Hp). reflexivity.
Qed.
End ProviderFacts.

(* ===================================================================== *)
(** * The row parser: composition and stored values that are no objects *)
(* ===================================================================== *)

Section ParserMore.
Variable JSON_parse : string -> completion json.
Local Abbreviation parse := (parseSettingsFromData JSON_parse).

(** The group [g] after some rows: decided by the rows that carry its key,
    whatever the bundle was before, when there is such a row. *)
Lemma get_group_foldl_decided g rows s s' :
  has_group_row g rows = true ->
  get_group g (foldl (after_row JSON_parse) s rows)
  = get_group g (foldl (after_row JSON_parse) s' rows).
Proof.
  revert s s'. induction rows as [|row rows IH] using rev_ind; intros s s'; [discriminate|].
  unfold has_group_row. rewrite existsb_app, !foldl_app. simpl. rewrite orb_false_r.
  destruct (String.eqb_spec (Row.key row) (group_key g)) as [Hk|Hk].
  - intros _. rewrite !(after_row_reserved _ _ _ g) by (rewrite Hk; apply reserved_group_key).
    rewrite !get_set_group. reflexivity.
  - rewrite orb_false_r. intros H. rewrite !get_group_after_row_ne by assumption.
    apply IH, H.
Qed.

Lemma has_group_row_false g rows :
  has_group_row g rows = false -> Forall (fun r => Row.key r <> group_key g) rows.
Proof.
  unfold has_group_row. induction rows as [|row rows IH]; simpl; [constructor|].
  destruct (String.eqb_spec (Row.key row) (group_key g)); [discriminate|].
  simpl. intros H. constructor; auto.
Qed.

(** X7.  Parsing two lists of rows one after the other: at every injection
    point the scripts are those of the first list followed by those of the
    second, and a group is the one the second list gives when it has a row
    with the group's key, the one the first list gives otherwise. *)
Theorem parse_app (rows1 rows2 : list Row.t) :
  exists b1 b2 b,
    parse rows1 = Normal b1 /\ parse rows2 = Normal b2
    /\ parse (rows1 ++ rows2) = Normal b
    /\ Forall (fun point =>
                 sequence point (scripts b)
                 = sequence point (scripts b1) ++ sequence point (scripts b2))
              injection_points
    /\ forall g, get_group g b
                 = if has_group_row g rows2 then get_group g b2 else get_group g b1.
Proof.
  exists (foldl (after_row JSON_parse) getDefaultSettings rows1),
         (foldl (after_row JSON_parse) getDefaultSettings rows2),
         (foldl (after_row JSON_parse) getDefaultSettings (rows1 ++ rows2)).
  repeat (split; [apply parse_Normal|]). split.
  - apply Forall_forall. intros point Hp.
    rewrite foldl_app, sequence_foldl by assumption.
    rewrite (sequence_parse _ point rows2 Hp). reflexivity.
  - intros g. rewrite foldl_app. destruct (has_group_row g rows2) eqn:H.
    + apply get_group_foldl_decided, H.
    + apply get_group_foldl_ne, has_group_row_false, H.
Qed.

(** ** Stored values that are valid JSON but no object *)

Lemma all_digits_pretty_N_go x s :
  all_digits s = true -> all_digits (pretty_N_go x s) = true.
Proof.
  revert s. induction (N.lt_wf_0 x) as [x _ IH]; intros s Hs.
  assert (x = 0 \/ 0 < x)%N as [->|Hx] by lia; [rewrite pretty_N_go_0; exact Hs|].
  rewrite pretty_N_go_step by assumption. apply IH; [apply N.div_lt; lia|].
  unfold all_digits. simpl. rewrite andb_true_iff. split; [|exact Hs].
  unfold pretty_N_char. repeat case_match; reflexivity.
Qed.

Lemma all_digits_pretty (i : nat) : all_digits (pretty i) = true.
Proof.
  unfold pretty, pretty_nat, pretty, pretty_N. case_decide; [reflexivity|].
  apply all_digits_pretty_N_go. reflexivity.
Qed.

Lemma index_props_digits {A} (f : A -> json) (l : list A) k x :
  index_props f l !! k = Some x -> all_digits k = true.
Proof.
  unfold index_props. intros H%elem_of_list_to_map_2.
  apply list_elem_of_lookup in H as [i H].
  rewrite list_lookup_imap in H.
  destruct (l !! i); simpl in H; [|discriminate].
  injection H as <- _. apply all_digits_pretty.
Qed.

Lemma default_field_not_digits g k :
  is_Some (group_default g !! k) -> all_digits k = false.
Proof.
  intros [x H]. destruct g; apply elem_of_list_to_map_2 in H;
    repeat (apply elem_of_cons in H as [[= -> _]|H]; [reflexivity|]);
    apply elem_of_nil in H; destruct H.
Qed.

Lemma own_props_not_object v k :
  not_object v = true -> all_digits k = false -> own_props v !! k = None.
Proof.
  intros Hv Hk. destruct v as [| | | s | items | props]; simpl;
    try apply lookup_empty; try discriminate.
  - destruct (index_props _ _ !! k) eqn:H; [|reflexivity].
    apply index_props_digits in H. congruence.
  - destruct (index_props _ _ !! k) eqn:H; [|reflexivity].
    apply index_props_digits in H. congruence.
Qed.

(** X8.  A group row whose value is valid JSON but not an object (a number,
    a boolean, [null], a string, an array) does not throw and keeps the
    default of every field of the group; a number, a boolean or [null]
    leaves the group exactly at its defaults. *)
Theorem non_object_value_keeps_defaults (before after : list Row.t) row g text v :
  Row.key row = group_key g ->
  Row.value row = Some text ->
  JSON_parse text = Normal v ->
  not_object v = true ->
  Forall (fun r => Row.key r <> group_key g) after ->
  exists b,
    parse (before ++ row :: after) = Normal b
    /\ (forall field, is_Some (group_default g !! field) ->
                      get_group g b !! field = group_default g !! field)
    /\ (scalar v = true -> get_group g b = group_default g).
Proof.
  intros Hk Hv Hj Hno Hafter.
  eexists. split; [apply parse_Normal|].
  assert (Hg : get_group g (foldl (after_row JSON_parse) getDefaultSettings
                              (before ++ row :: after))
               = if String.eqb text "" then group_default g
                 else own_props v ∪ group_default g).
  { rewrite foldl_app_row, get_group_foldl_ne by assumption.
    rewrite (after_row_reserved _ _ _ g) by (rewrite Hk; apply reserved_group_key).
    rewrite get_set_group, Hv.
    destruct (String.eqb_spec text "") as [->|Hne].
    - apply merged_falsy. reflexivity.
    - apply merged_object; assumption. }
  rewrite Hg. split.
  - intros field Hf. destruct (String.eqb text ""); [reflexivity|].
    apply lookup_union_r, own_props_not_object; [exact Hno|].
    eapply default_field_not_digits, Hf.
  - intros Hs. destruct (String.eqb text ""); [reflexivity|].
    destruct v; try discriminate; simpl; apply (left_id_L ∅ (∪)).
Qed.
End ParserMore.

(* ===================================================================== *)
(** * The declared head tags *)
(* ===================================================================== *)

Section RenderFacts.
Variable parseHTML : string -> list node.

Lemma renderScript_Some script :
  is_Some (renderScript script) ->
  nonempty (CustomScript.value script) = true /\ head_kind script = false.
Proof.
  unfold renderScript, head_kind.
  destruct (nonempty (CustomScript.value script)); simpl; [|intros [x H]; discriminate].
  destruct (_ || _); [intros [x H]; discriminate|auto].
Qed.

(** X9.  A head item takes one path only: an item that [renderScript]
    declares as a tag is skipped by [injectIntoHead], an item of a kind that
    [injectIntoHead] moves into the head is not declared, and a non-empty
    item of kind [script], [link] or [json_ld] is declared. *)
Theorem head_item_takes_one_path script st :
  selector_safe (CustomScript.key script) = true ->
  (is_Some (renderScript script) -> injectIntoHead parseHTML script st = Some st)
  /\ (head_kind script = true -> renderScript script = None)
  /\ (nonempty (CustomScript.value script) = true ->
      String.eqb (CustomScript.setting_type script) "script"
      || String.eqb (CustomScript.setting_type script) "link"
      || String.eqb (CustomScript.setting_type script) "json_ld" = true ->
      is_Some (renderScript script)).
Proof.
  intros Hsafe. split; [|split].
  - intros [Hv Hk]%renderScript_Some. destruct st as [doc created].
    destruct (injectIntoHead_cases parseHTML script doc created Hsafe)
      as [[H _] | (_ & _ & H)]; [exact H|].
    rewrite Hv, Hk in H. discriminate.
  - intros Hk. destruct (renderScript script) eqn:H; [|reflexivity].
    destruct (renderScript_Some script) as [_ Hk']; [eauto|congruence].
  - intros Hv Hkind. unfold renderScript. rewrite Hv. simpl.
    destruct (String.eqb_spec (CustomScript.setting_type script) "script") as [->|_];
      [simpl; eauto|].
    destruct (String.eqb_spec (CustomScript.setting_type script) "link") as [->|_];
      [simpl; eauto|].
    destruct (String.eqb_spec (CustomScript.setting_type script) "json_ld") as [->|_];
      [simpl; eauto|discriminate].
Qed.

Lemma injectIntoBody_other_kind script (prepend : bool) st :
  selector_safe (CustomScript.key script) = true ->
  body_kind script = false ->
  injectIntoBody parseHTML script prepend st = Some st.
Proof.
  intros Hsafe Hk. destruct st as [doc created].
  destruct (injectIntoBody_cases parseHTML script prepend doc created Hsafe)
    as [[H _] | (el & _ & _ & _ & H)]; [exact H|].
  rewrite Hk, andb_false_r in H. discriminate.
Qed.

Lemma forEach_other_kind (prepend : bool) l st :
  Forall (fun s => selector_safe (CustomScript.key s) = true /\ body_kind s = false) l ->
  forEach (fun s => injectIntoBody parseHTML s prepend) l st = Some st.
Proof.
  induction 1 as [|s l [Hsafe Hk] _ IH]; simpl; [reflexivity|].
  rewrite injectIntoBody_other_kind by assumption. exact IH.
Qed.

(** X10.  Items configured for the body with a kind other than [script] and
    [custom_html] are dropped: the body effect leaves the document as it is
    and registers nothing, and the declared head tags do not depend on the
    body items. *)
Theorem body_items_of_other_kinds_are_dropped pm path view loading doc :
  Forall (fun s => selector_safe (CustomScript.key s) = true /\ body_kind s = false)
         (body_start (view_scripts view) ++ body_end (view_scripts view)) ->
  body_effect parseHTML loading (Some (view_scripts view)) doc = Some (doc, [])
  /\ SEOInjector_tags pm path (Some view) loading
     = SEOInjector_tags pm path
         (Some (mkView (view_seo view) (view_general view)
                       (mkScripts (head_start (view_scripts view))
                                  (head_end (view_scripts view)) [] [])))
         loading.
Proof.
  intros [Hs He]%Forall_app. split; [|reflexivity].
  unfold body_effect. destruct loading; [reflexivity|].
  rewrite (forEach_other_kind true _ _ Hs). simpl.
  apply (forEach_other_kind false _ _ He).
Qed.
End RenderFacts.

(** ** What the declared tags depend on *)

(** X11.  Off the home page the declared tags depend on the backend only
    through the robots directive, the two verification codes, the favicon
    and the head items: title, description, keywords, canonical URL, Open
    Graph and Twitter fields and the site name of the backend have no
    effect there. *)
Theorem backend_seo_is_home_only pm path loading v v' :
  path <> "/" ->
  robots (view_seo v) = robots (view_seo v') ->
  google_site_verification (view_seo v) = google_site_verification (view_seo v') ->
  bing_site_verification (view_seo v) = bing_site_verification (view_seo v') ->
  favicon_url (view_general v) = favicon_url (view_general v') ->
  head_start (view_scripts v) = head_start (view_scripts v') ->
  head_end (view_scripts v) = head_end (view_scripts v') ->
  SEOInjector_tags pm path (Some v) loading = SEOInjector_tags pm path (Some v') loading.
Proof.
  intros Hpath Hr Hg Hb Hf Hs He. unfold SEOInjector_tags.
  destruct (String.eqb_spec path "/") as [|_]; [contradiction|].
  simpl. rewrite Hr, Hg, Hb, Hf, Hs, He. unfold or_opt. simpl.
  destruct (truthy (pm ≫= PageMeta.title)), (truthy (pm ≫= PageMeta.description)),
    (truthy (pm ≫= PageMeta.canonical)),
    (truthy (String.concat ", " <$> pm ≫= PageMeta.keywords)); reflexivity.
Qed.

Lemma tag_texts_app tag l1 l2 : tag_texts tag (l1 ++ l2) = tag_texts tag l1 ++ tag_texts tag l2.
Proof. apply flat_map_app. Qed.

Lemma tag_texts_when tag v f :
  tag_texts tag (when_truthy v f)
  = match v with
    | Some s => if nonempty s then tag_texts tag [f s] else []
    | None => []
    end.
Proof. destruct v as [s|]; simpl; [destruct (nonempty s)|]; reflexivity. Qed.

Lemma renderScript_tag script key n :
  renderScript script = Some (key, n) -> tag_texts "title" [n] = [].
Proof.
  unfold renderScript. destruct (nonempty _); simpl; [|discriminate].
  destruct (_ || _); [discriminate|].
  destruct (String.eqb _ "script");
    [|destruct (String.eqb _ "link"); [|destruct (String.eqb _ "json_ld"); [|discriminate]]];
    intros [= <- <-]; try reflexivity;
    unfold text_children; destruct (String.eqb _ ""); reflexivity.
Qed.

Lemma rendered_scripts_tags l :
  tag_texts "title" (map snd (omap renderScript l)) = [].
Proof.
  induction l as [|s l IH]; simpl; [auto|].
  destruct (renderScript s) as [[key n]|] eqn:H; simpl; [|auto].
  change (tag_texts "title" ([n] ++ map snd (omap renderScript l)) = []).
  rewrite tag_texts_app, (renderScript_tag s key n H), IH. reflexivity.
Qed.

Lemma custom_scripts_tags (scripts : option Scripts) (loading : bool) :
  tag_texts "title"
    match scripts with
    | Some sc =>
        if loading then []
        else map snd (omap renderScript (head_start sc))
             ++ map snd (omap renderScript (head_end sc))
    | None => []
    end = [].
Proof.
  destruct scripts as [sc|]; [|auto]. destruct loading; [auto|].
  rewrite tag_texts_app, !rendered_scripts_tags. reflexivity.
Qed.

Lemma tag_texts_when_meta v f :
  (forall s, exists attrs, f s = Element "meta" attrs [] \/ f s = Element "link" attrs []) ->
  tag_texts "title" (when_truthy v f) = [].
Proof.
  intros Hf. rewrite tag_texts_when. destruct v as [s|]; [|reflexivity].
  destruct (nonempty s); [|reflexivity].
  destruct (Hf s) as [attrs [-> | ->]]; reflexivity.
Qed.

Lemma is_meta_name k s :
  exists attrs, meta_name k s = Element "meta" attrs [] \/ meta_name k s = Element "link" attrs [].
Proof. eexists. left. reflexivity. Qed.

Lemma is_meta_property k s :
  exists attrs,
    meta_property k s = Element "meta" attrs [] \/ meta_property k s = Element "link" attrs [].
Proof. eexists. left. reflexivity. Qed.

(** The title elements among the declared tags are those of the title slot. *)
Lemma titles_of_tags pm path settings loading :
  tag_texts "title" (SEOInjector_tags pm path settings loading)
  = match or_opt (pm ≫= PageMeta.title)
                 (if String.eqb path "/" then meta_title <$> (view_seo <$> settings) else None)
    with
    | Some s => if nonempty s then [s] else []
    | None => []
    end.
Proof.
  unfold SEOInjector_tags.
  rewrite !tag_texts_app, (custom_scripts_tags (view_scripts <$> settings) loading).
  destruct (String.eqb path "/").
  - rewrite !tag_texts_app.
    rewrite !(tag_texts_when_meta _ (meta_name _)) by apply is_meta_name.
    rewrite !(tag_texts_when_meta _ (meta_property _)) by apply is_meta_property.
    rewrite !(tag_texts_when_meta _ (fun c => Element "link" _ []))
      by (intros; eexists; right; reflexivity).
    rewrite tag_texts_when. simpl. rewrite !app_nil_r.
    destruct (or_opt _ _) as [s|]; [destruct (nonempty s)|]; reflexivity.
  - rewrite !(tag_texts_when_meta _ (meta_name _)) by apply is_meta_name.
    rewrite !(tag_texts_when_meta _ (fun c => Element "link" _ []))
      by (intros; eexists; right; reflexivity).
    rewrite tag_texts_when. simpl. rewrite !app_nil_r.
    destruct (or_opt _ _) as [s|]; [destruct (nonempty s)|]; reflexivity.
Qed.

(** X12.  The declared [title] elements: a non-empty page title is the one
    title; without one there is no title off the home page, and on the home
    page the title is the backend's [meta_title] when that is non-empty. *)
Theorem document_title pm path settings loading :
  let titles := tag_texts "title" (SEOInjector_tags pm path settings loading) in
  (forall t, pm ≫= PageMeta.title = Some t -> t <> "" -> titles = [t])
  /\ (truthy (pm ≫= PageMeta.title) = false -> path <> "/" -> titles = [])
  /\ (truthy (pm ≫= PageMeta.title) = false -> path = "/" ->
      titles = match settings with
               | Some v => if nonempty (meta_title (view_seo v))
                           then [meta_title (view_seo v)] else []
               | None => []
               end).
Proof.
  cbv zeta. rewrite titles_of_tags. unfold or_opt. split; [|split].
  - intros t -> Hne. simpl. unfold nonempty.
    destruct (String.eqb_spec t ""); [contradiction|]. simpl.
    destruct (String.eqb_spec t ""); [contradiction|]. reflexivity.
  - intros -> Hpath. destruct (String.eqb_spec path "/"); [contradiction|]. reflexivity.
  - intros -> ->. simpl. destruct settings; reflexivity.
Qed.

(* ===================================================================== *)
(** * What the effects add, and where *)
(* ===================================================================== *)

Section EffectShapes.
Variable code : string -> string -> string.
Variable parseHTML : string -> list node.

Lemma adds_scripts_id : adds_scripts 0 0 (fun st => st).
Proof.
  intros st. exists [], [], []. rewrite !app_nil_r. simpl. repeat split; auto.
Qed.

Lemma adds_scripts_mono a b a' b' f :
  a <= a' -> b <= b' -> adds_scripts a b f -> adds_scripts a' b' f.
Proof.
  intros Ha Hb H st. destruct (H st) as (new & before & after & ? & ? & ? & ? & ? & ? & ?).
  exists new, before, after. repeat split; auto; lia.
Qed.

Lemma adds_scripts_compose a b c d f g :
  adds_scripts a b f -> adds_scripts c d g -> adds_scripts (a + c) (b + d) (fun st => g (f st)).
Proof.
  intros Hf Hg st.
  destruct (Hf st) as (n1 & b1 & a1 & Hs1 & Hh1 & Hb1 & Hn1 & Hba1 & Hl1 & Hl1').
  destruct (Hg (f st)) as (n2 & b2 & a2 & Hs2 & Hh2 & Hb2 & Hn2 & Hba2 & Hl2 & Hl2').
  exists (n1 ++ n2), (b2 ++ b1), (a1 ++ a2).
  rewrite Hs2, Hs1, Hh2, Hh1, Hb2, Hb1, !app_assoc.
  apply Forall_app in Hba1 as [? ?]. apply Forall_app in Hba2 as [? ?].
  repeat split; auto.
  - apply Forall_app; auto.
  - repeat (apply Forall_app; split); auto.
  - rewrite length_app. lia.
  - rewrite length_app. lia.
Qed.

Lemma injectScript_adds id content options : adds_scripts 0 0 (injectScript id content options).
Proof.
  intros [doc created]. unfold injectScript.
  destruct (getElementById id doc).
  - exists [], [], []. rewrite !app_nil_r. simpl. repeat split; auto.
  - eexists [_], [], []. simpl. rewrite app_nil_r. repeat split; auto.
    constructor; [|constructor].
    destruct (options ≫= src) as [url|]; [destruct (nonempty url)|]; reflexivity.
Qed.

Lemma ga4_adds gaId : adds_scripts 0 0 (ga4 code gaId).
Proof.
  unfold ga4.
  exact (adds_scripts_compose 0 0 0 0 _ _ (injectScript_adds _ _ _) (injectScript_adds _ _ _)).
Qed.

Lemma noscript_adds_front id n :
  has_tag "noscript" n = true ->
  adds_scripts 1 0 (fun st => if negb (getElementById id (fst st))
                              then (insertBefore_firstChild_body n (fst st), snd st)
                              else (fst st, snd st)).
Proof.
  intros Hn [doc created]. simpl. destruct (getElementById id doc); simpl.
  - exists [], [], []. rewrite !app_nil_r. simpl. repeat split; auto.
  - exists [], [n], []. rewrite !app_nil_r. simpl. repeat split; auto.
Qed.

Lemma noscript_adds_back id n :
  has_tag "noscript" n = true ->
  adds_scripts 0 1 (fun st => if negb (getElementById id (fst st))
                              then (appendChild_body n (fst st), snd st)
                              else (fst st, snd st)).
Proof.
  intros Hn [doc created]. simpl. destruct (getElementById id doc); simpl.
  - exists [], [], []. rewrite !app_nil_r. simpl. repeat split; auto.
  - exists [], [], [n]. rewrite !app_nil_r. simpl. repeat split; auto.
Qed.

Lemma adds_scripts_ext a b f g : (forall st, f st = g st) -> adds_scripts a b f -> adds_scripts a b g.
Proof. intros E H st. rewrite <- E. apply H. Qed.

Lemma gtm_adds gtmId : adds_scripts 1 0 (gtm code gtmId).
Proof.
  pose (iframe := Element "iframe"
        [("src", "https://www.googletagmanager.com/ns.html?id=" +:+ gtmId);
         ("height", "0"); ("width", "0");
         ("style", "display: none; visibility: hidden;")] []).
  eapply adds_scripts_ext;
    [|exact (adds_scripts_compose 0 0 1 0 _ _
               (injectScript_adds "gtm-init" (code "gtm-init" gtmId) None)
               (noscript_adds_front "gtm-noscript"
                  (Element "noscript" [("id", "gtm-noscript")] [iframe]) eq_refl))].
  intros st. unfold gtm. simpl. destruct (injectScript _ _ _ st) as [doc cleanup]. simpl.
  reflexivity.
Qed.

Lemma meta_pixel_adds pixelId : adds_scripts 0 1 (meta_pixel code pixelId).
Proof.
  pose (img := Element "img"
        [("height", "1"); ("width", "1"); ("style", "display: none;");
         ("src", "https://www.facebook.com/tr?id=" +:+ pixelId +:+ "&ev=PageView&noscript=1");
         ("alt", "")] []).
  eapply adds_scripts_ext;
    [|exact (adds_scripts_compose 0 0 0 1 _ _
               (injectScript_adds "meta-pixel" (code "meta-pixel" pixelId) None)
               (noscript_adds_back "meta-pixel-noscript"
                  (Element "noscript" [("id", "meta-pixel-noscript")] [img]) eq_refl))].
  intros st. unfold meta_pixel. simpl. destruct (injectScript _ _ _ st) as [doc cleanup]. simpl.
  reflexivity.
Qed.

Lemma when_adds a b s f : (forall v, adds_scripts a b (f v)) -> adds_scripts a b (when s f).
Proof.
  intros H. unfold when. destruct (nonempty s).
  - apply H.
  - apply (adds_scripts_mono 0 0); [lia|lia|]. exact adds_scripts_id.
Qed.

Lemma providers_adds a : adds_scripts 1 1 (providers code a).
Proof.
  unfold providers.
  apply (adds_scripts_compose 1 1 0 0 _ (when (hotjar_id a) (hotjar code)));
    [|apply when_adds; intros; apply injectScript_adds].
  apply (adds_scripts_compose 1 1 0 0 _ (when (tiktok_pixel_id a) (tiktok code)));
    [|apply when_adds; intros; apply injectScript_adds].
  apply (adds_scripts_compose 1 0 0 1 _ (when (meta_pixel_id a) (meta_pixel code)));
    [|apply when_adds; intros; apply meta_pixel_adds].
  apply (adds_scripts_compose 0 0 1 0 _ (when (google_tag_manager_id a) (gtm code)));
    [|apply when_adds; intros; apply gtm_adds].
  apply when_adds; intros; apply ga4_adds.
Qed.

(** X13.  The analytics effect is skipped while the settings are loading,
    when there are no analytics settings and when the refs are marked as
    injected: document and refs stay as they are.  Otherwise it runs: it
    marks the refs as injected, appends to the head exactly the elements it
    registers for removal, all of them [script] elements, and puts into the
    body at most one [noscript] element before and one after the present
    children, none of them registered. *)
Theorem analytics_registers_head_scripts_only isLoading analytics refs doc :
  (isLoading = true \/ analytics = None \/ hasInjectedRef refs = true ->
   Analytics_effect code isLoading analytics refs doc = (refs, doc))
  /\ (isLoading = false -> is_Some analytics -> hasInjectedRef refs = false ->
      exists doc' created before after,
        Analytics_effect code isLoading analytics refs doc = (mkRefs created true, doc')
        /\ head doc' = head doc ++ created
        /\ body doc' = before ++ body doc ++ after
        /\ Forall (fun n => has_tag "script" n = true) created
        /\ Forall (fun n => has_tag "noscript" n = true) (before ++ after)
        /\ length before <= 1 /\ length after <= 1).
Proof.
  unfold Analytics_effect. split.
  - intros [-> | [-> | Href]]; [destruct analytics; reflexivity|reflexivity|].
    rewrite Href, orb_true_r. destruct analytics; reflexivity.
  - intros -> [a ->] Href. rewrite Href. simpl.
    destruct (providers_adds a (doc, []))
      as (new & before & after & Hs & Hh & Hb & Hn & Hba & ? & ?).
    unfold providers in *. simpl in *. subst new.
    eexists _, _, before, after. split; [reflexivity|]. repeat split; auto.
Qed.

(** ** Where the body items land *)

Lemma injectIntoBody_step script (prepend : bool) doc created doc' created' :
  injectIntoBody parseHTML script prepend (doc, created) = Some (doc', created') ->
  head doc' = head doc
  /\ ((doc' = doc /\ created' = created)
      \/ exists el, marker "data-seo-setting" el = Some (CustomScript.key script)
                    /\ created' = created ++ [el]
                    /\ body doc' = if prepend then el :: body doc else body doc ++ [el]).
Proof.
  unfold injectIntoBody.
  destruct (nonempty (CustomScript.value script)); simpl;
    [|intros [= <- <-]; auto].
  destruct (querySelector_attr _ _ doc) as [[|]|]; simpl;
    [intros [= <- <-]; auto| |discriminate].
  destruct (String.eqb (CustomScript.setting_type script) "script").
  - intros [= <- <-]. split; [destruct prepend; reflexivity|]. right.
    exists (Element "script" [("data-seo-setting", CustomScript.key script)]
                   (text_children (CustomScript.value script))).
    split; [reflexivity|]. split; [reflexivity|]. destruct prepend; reflexivity.
  - destruct (String.eqb (CustomScript.setting_type script) "custom_html").
    + intros [= <- <-]. split; [destruct prepend; reflexivity|]. right.
      exists (Element "div"
                [("data-seo-setting", CustomScript.key script); ("style", "display: contents;")]
                (parseHTML (CustomScript.value script))).
      split; [reflexivity|]. split; [reflexivity|]. destruct prepend; reflexivity.
    + intros [= <- <-]. auto.
Qed.

Lemma forEach_body (prepend : bool) l doc created doc' created' :
  forEach (fun s => injectIntoBody parseHTML s prepend) l (doc, created) = Some (doc', created') ->
  exists new,
    created' = created ++ new
    /\ head doc' = head doc
    /\ body doc' = (if prepend then rev new ++ body doc else body doc ++ new)
    /\ sublist (marker "data-seo-setting" <$> new) (Some ∘ CustomScript.key <$> l).
Proof.
  revert doc created. induction l as [|s l IH]; intros doc created.
  - intros [= <- <-]. exists []. rewrite app_nil_r. destruct prepend; simpl;
      rewrite ?app_nil_r; repeat split; auto. all: constructor.
  - cbn [forEach].
    destruct (injectIntoBody parseHTML s prepend (doc, created)) as [[d1 c1]|] eqn:Hs;
      [|discriminate].
    simpl. intros Hrest. apply IH in Hrest as (new & -> & Hh & Hb & Hsub).
    apply injectIntoBody_step in Hs as [Hh1 [[-> ->] | (el & Hm & -> & Hb1)]].
    + exists new. repeat split; auto. apply sublist_cons. exact Hsub.
    + exists (el :: new). rewrite <- app_assoc. simpl. rewrite Hh, Hh1, Hb, Hb1.
      repeat split; auto.
      * destruct prepend; rewrite <- ?app_assoc; reflexivity.
      * rewrite Hm. apply sublist_skip. exact Hsub.
Qed.

(** X14.  The body effect leaves the head alone and keeps the present
    children of the body together: the elements created for [body_start] come
    before them in the reverse of their configured order, those for
    [body_end] after them in configured order, and the elements are
    registered in the order of creation. *)
Theorem body_items_order sc doc doc' created :
  body_effect parseHTML false (Some sc) doc = Some (doc', created) ->
  exists first last,
    created = first ++ last
    /\ body doc' = rev first ++ body doc ++ last
    /\ head doc' = head doc
    /\ sublist (marker "data-seo-setting" <$> first) (Some ∘ CustomScript.key <$> body_start sc)
    /\ sublist (marker "data-seo-setting" <$> last) (Some ∘ CustomScript.key <$> body_end sc).
Proof.
  unfold body_effect.
  destruct (forEach _ (body_start sc) (doc, [])) as [[d1 c1]|] eqn:H1; simpl; [|discriminate].
  intros H2.
  apply forEach_body in H1 as (first & -> & Hh1 & Hb1 & Hs1).
  apply forEach_body in H2 as (last & -> & Hh2 & Hb2 & Hs2).
  exists first, last. simpl. rewrite Hb2, Hb1, Hh2, Hh1, <- app_assoc. repeat split; auto.
Qed.

(** ** What the head effect moves and what it registers *)

Lemma injectIntoHead_step script doc created doc' created' :
  injectIntoHead parseHTML script (doc, created) = Some (doc', created') ->
  exists moved,
    head doc' = head doc ++ moved
    /\ created' = created ++ List.filter is_element moved
    /\ body doc' = body doc
    /\ Forall (fun n => is_element n = true ->
                        marker "data-head-setting" n = Some (CustomScript.key script)) moved.
Proof.
  unfold injectIntoHead.
  destruct (nonempty (CustomScript.value script)); simpl;
    [|intros [= <- <-]; exists []; rewrite !app_nil_r; auto].
  destruct (querySelector_attr _ _ doc) as [[|]|]; simpl;
    [intros [= <- <-]; exists []; rewrite !app_nil_r; auto| |discriminate].
  destruct (_ || _); intros [= <- <-]; simpl.
  - eexists. repeat split; auto.
    apply Forall_forall. intros n [m [-> _]]%list_elem_of_fmap.
    destruct m; simpl; try discriminate.
    intros _. apply getAttribute_setAttribute.
  - exists []. rewrite !app_nil_r. auto.
Qed.

Lemma forEach_head l doc created doc' created' :
  forEach (injectIntoHead parseHTML) l (doc, created) = Some (doc', created') ->
  exists moved,
    head doc' = head doc ++ moved
    /\ created' = created ++ List.filter is_element moved
    /\ body doc' = body doc
    /\ Forall (fun n => is_element n = true ->
                        exists s, s ∈ l /\ marker "data-head-setting" n = Some (CustomScript.key s))
              moved.
Proof.
  revert doc created. induction l as [|s l IH]; intros doc created.
  - intros [= <- <-]. exists []. rewrite !app_nil_r. auto.
  - cbn [forEach].
    destruct (injectIntoHead parseHTML s (doc, created)) as [[d1 c1]|] eqn:Hs;
      [|discriminate].
    simpl. intros Hrest. apply IH in Hrest as (m2 & Hh2 & -> & Hb2 & Hf2).
    apply injectIntoHead_step in Hs as (m1 & Hh1 & -> & Hb1 & Hf1).
    exists (m1 ++ m2). rewrite Hh2, Hh1, Hb2, Hb1, List.filter_app, !app_assoc.
    repeat split; auto. apply Forall_app. split.
    + eapply Forall_impl; [exact Hf1|]. intros n H He. exists s. split; [left|auto].
    + eapply Forall_impl; [exact Hf2|]. intros n H He.
      destruct (H He) as (s' & ? & ?). exists s'. split; [right|]; auto.
Qed.

(** X15.  The head effect leaves the body alone, appends what it moves after
    the present children of the head, registers exactly the element nodes
    among the moved nodes (text and comments are moved but not registered),
    and every moved element carries the key of one of the head items. *)
Theorem head_effect_registers_elements sc doc doc' created :
  head_effect parseHTML false (Some sc) doc = Some (doc', created) ->
  exists moved,
    head doc' = head doc ++ moved
    /\ created = List.filter is_element moved
    /\ body doc' = body doc
    /\ Forall (fun n => is_element n = true ->
                        exists s, s ∈ head_start sc ++ head_end sc
                                  /\ marker "data-head-setting" n = Some (CustomScript.key s))
              moved.
Proof.
  unfold head_effect.
  destruct (forEach _ (head_start sc) (doc, [])) as [[d1 c1]|] eqn:H1; simpl; [|discriminate].
  intros H2.
  apply forEach_head in H1 as (m1 & Hh1 & -> & Hb1 & Hf1).
  apply forEach_head in H2 as (m2 & Hh2 & -> & Hb2 & Hf2).
  exists (m1 ++ m2). rewrite Hh2, Hh1, Hb2, Hb1, List.filter_app, !app_assoc. simpl.
  repeat split; auto. apply Forall_app. split.
  - eapply Forall_impl; [exact Hf1|]. intros n H He.
    destruct (H He) as (s & ? & ?). exists s. split; [apply elem_of_app; left|]; auto.
  - eapply Forall_impl; [exact Hf2|]. intros n H He.
    destruct (H He) as (s & ? & ?). exists s. split; [apply elem_of_app; right|]; auto.
Qed.

End EffectShapes.


(** ** The further properties on concrete inputs *)

(** After a first request has been answered with no rows. *)
Lemma loader_bookkeeping_witness :
  let s := step JsonRef.parse (step JsonRef.parse initial (Call 0))
                (Settle 0 (Replied (Response.mk (Some []) None)) 5) in
  queries s = length (promises s)
  /\ (forall p, pendingRequest s = Some p -> promises s !! p = Some Pending)
  /\ (forall p e, promises s !! p <> Some (Rejected e))
  /\ (forall c, settingsCache s = Some c -> is_Some (objects s !! data c))
  /\ (forall p d, promises s !! p = Some (Fulfilled d) -> is_Some (objects s !! d)).
Proof.
  cbv zeta. apply (loader_bookkeeping JsonRef.parse).
  apply reach_step; [|exact I]. apply reach_step; [|exact I]. apply reach_initial.
Defined.

(** The first request is answered with one [settings_seo] row. *)
Lemma success_fills_cache_witness :
  let s := fst (fetchAllSiteSettings 0 initial) in
  let r := Response.mk (Some [group_row "settings_seo" (Some meta_title_X)]) None in
  exists d b,
    parseSettingsFromData JsonRef.parse (default [] (Response.data r)) = Normal b
    /\ promises (settle JsonRef.parse 0 (Replied r) 5 s) !! 0 = Some (Fulfilled d)
    /\ objects (settle JsonRef.parse 0 (Replied r) 5 s) !! d = Some b
    /\ settingsCache (settle JsonRef.parse 0 (Replied r) 5 s) = Some (mkCache d 5)
    /\ forall now', (now' - 5 < 5 * 60 * 1000)%Z ->
         fetchAllSiteSettings now' (settle JsonRef.parse 0 (Replied r) 5 s)
         = (settle JsonRef.parse 0 (Replied r) 5 s, Hit d).
Proof.
  cbv zeta.
  apply (success_fills_cache JsonRef.parse (fst (fetchAllSiteSettings 0 initial)) 0
           (Response.mk (Some [group_row "settings_seo" (Some meta_title_X)]) None) 5);
    reflexivity.
Defined.

(** A caller holds the bundle of the first request; the cache is cleared and
    a second request is made and answered. *)
Lemma received_bundle_is_stable_witness :
  let s := settle JsonRef.parse 0 offline 5 (fst (fetchAllSiteSettings 0 initial)) in
  let es := [Clear; Call 10; Settle 1 (Replied (Response.mk (Some []) None)) 20] in
  received (run JsonRef.parse es s) (Wait 0) = Some 0
  /\ objects (run JsonRef.parse es s) !! 0 = Some getDefaultSettings.
Proof.
  cbv zeta.
  apply (received_bundle_is_stable JsonRef.parse
           [Clear; Call 10; Settle 1 (Replied (Response.mk (Some []) None)) 20]
           (settle JsonRef.parse 0 offline 5 (fst (fetchAllSiteSettings 0 initial)))
           (Wait 0) 0 getDefaultSettings); reflexivity.
Defined.

(** The provider mounts, the backend is offline, the load resumes. *)
Lemma provider_never_fails_witness :
  let st := provider_step JsonRef.parse
              (provider_step JsonRef.parse mounted (Answered 0 offline 5)) (Resumed 0) in
  Provider.error (snd st) = None
  /\ (Provider.isLoading (snd st) = false ->
      exists d b, Provider.settings (snd st) = Some d /\ objects (fst st) !! d = Some b)
  /\ (forall d, Provider.settings (snd st) = Some d -> is_Some (objects (fst st) !! d)).
Proof.
  cbv zeta. apply (provider_never_fails JsonRef.parse).
  exact (provider_reach_step JsonRef.parse _ (Resumed 0)
           (provider_reach_step JsonRef.parse _ (Answered 0 offline 5)
              (provider_reach_step JsonRef.parse _ (Mounted 0)
                 (provider_reach_initial JsonRef.parse)))).
Defined.

(** The mounted provider's request meets an outage: the load ends with the
    default bundle. *)
Lemma answered_load_resumes_witness :
  exists d b,
    objects (settle JsonRef.parse 0 offline 5 (fst mounted)) !! d = Some b
    /\ resume 0 (provider_step JsonRef.parse (fst mounted, snd mounted) (Answered 0 offline 5))
       = (settle JsonRef.parse 0 offline 5 (fst mounted),
          Provider.mk (Some d) false None (delete 0 (Provider.loads (snd mounted)))).
Proof.
  apply (answered_load_resumes JsonRef.parse (fst mounted) (snd mounted) 0 0 offline 5).
  - exact (provider_reach_step JsonRef.parse _ (Mounted 0)
             (provider_reach_initial JsonRef.parse)).
  - reflexivity.
Defined.

(** The stored SEO value is the JSON array [[1]]. *)
Lemma non_object_value_keeps_defaults_witness :
  exists b,
    parseSettingsFromData JsonRef.parse ([] ++ seo_array_row :: []) = Normal b
    /\ (forall field, is_Some (group_default Seo !! field) ->
                      get_group Seo b !! field = group_default Seo !! field)
    /\ (scalar (JArr [JNum "1"]) = true -> get_group Seo b = group_default Seo).
Proof.
  apply (non_object_value_keeps_defaults JsonRef.parse [] [] seo_array_row Seo "[1]"
           (JArr [JNum "1"])); try reflexivity.
  constructor.
Defined.

(** The stylesheet item is declared through the head tags and skipped by the
    DOM path. *)
Lemma head_item_takes_one_path_witness :
  (is_Some (renderScript stylesheet) ->
   injectIntoHead parseHTML_fixture stylesheet (empty_document, [])
   = Some (empty_document, []))
  /\ (head_kind stylesheet = true -> renderScript stylesheet = None)
  /\ (nonempty (CustomScript.value stylesheet) = true ->
      String.eqb (CustomScript.setting_type stylesheet) "script"
      || String.eqb (CustomScript.setting_type stylesheet) "link"
      || String.eqb (CustomScript.setting_type stylesheet) "json_ld" = true ->
      is_Some (renderScript stylesheet)).
Proof.
  apply (head_item_takes_one_path parseHTML_fixture stylesheet (empty_document, [])).
  reflexivity.
Defined.

(** A stylesheet item configured for the end of the body. *)
Lemma body_items_of_other_kinds_are_dropped_witness :
  let view := mkView default_seo default_general (mkScripts [] [] [] [stylesheet]) in
  body_effect parseHTML_fixture false (Some (view_scripts view)) empty_document
  = Some (empty_document, [])
  /\ SEOInjector_tags None "/" (Some view) false
     = SEOInjector_tags None "/"
         (Some (mkView (view_seo view) (view_general view)
                       (mkScripts (head_start (view_scripts view))
                                  (head_end (view_scripts view)) [] [])))
         false.
Proof.
  cbv zeta.
  apply (body_items_of_other_kinds_are_dropped parseHTML_fixture None "/"
           (mkView default_seo default_general (mkScripts [] [] [] [stylesheet]))
           false empty_document).
  repeat constructor.
Defined.

(** Two backends that differ in title, description, keywords, canonical URL,
    Open Graph and Twitter fields and site name. *)
Lemma backend_seo_is_home_only_witness :
  SEOInjector_tags (Some untitled_page) "/about" (Some default_view) false
  = SEOInjector_tags (Some untitled_page) "/about" (Some retitled_view) false.
Proof.
  apply (backend_seo_is_home_only (Some untitled_page) "/about" false default_view retitled_view);
    [discriminate|reflexivity..].
Defined.

(** A page with a title of its own, a page without one, and the home page. *)
Lemma document_title_witness :
  tag_texts "title" (SEOInjector_tags (Some about_page) "/about" (Some default_view) false)
  = ["About"]
  /\ tag_texts "title" (SEOInjector_tags (Some untitled_page) "/about" (Some default_view) false)
     = []
  /\ tag_texts "title" (SEOInjector_tags None "/" (Some default_view) false)
     = ["Supermal Karawaci"].
Proof.
  split; [|split].
  - apply (proj1 (document_title (Some about_page) "/about" (Some default_view) false) "About");
      [reflexivity|discriminate].
  - apply (proj1 (proj2 (document_title (Some untitled_page) "/about" (Some default_view) false)));
      [reflexivity|discriminate].
  - apply (proj2 (proj2 (document_title None "/" (Some default_view) false)));
      reflexivity.
Defined.

(** Analytics, tag manager and pixel on an empty document: skipped while
    loading, then run. *)
Lemma analytics_registers_head_scripts_only_witness :
  Analytics_effect code_sample true (Some all_pixels) fresh_refs empty_document
  = (fresh_refs, empty_document)
  /\ exists doc' created before after,
       Analytics_effect code_sample false (Some all_pixels) fresh_refs empty_document
       = (mkRefs created true, doc')
       /\ head doc' = head empty_document ++ created
       /\ body doc' = before ++ body empty_document ++ after
       /\ Forall (fun n => has_tag "script" n = true) created
       /\ Forall (fun n => has_tag "noscript" n = true) (before ++ after)
       /\ length before <= 1 /\ length after <= 1.
Proof.
  split.
  - apply (proj1 (analytics_registers_head_scripts_only code_sample true (Some all_pixels)
                    fresh_refs empty_document)).
    left. reflexivity.
  - apply (proj2 (analytics_registers_head_scripts_only code_sample false (Some all_pixels)
                    fresh_refs empty_document)); [reflexivity| |reflexivity].
    exists all_pixels. reflexivity.
Defined.

(** Two items for the start of the body and one for its end. *)
Lemma body_items_order_witness :
  let sc := mkScripts [] [] [banner; tracker] [chat_widget] in
  exists doc' created,
    body_effect parseHTML_fixture false (Some sc) empty_document = Some (doc', created)
    /\ exists first last,
         created = first ++ last
         /\ body doc' = rev first ++ body empty_document ++ last
         /\ head doc' = head empty_document
         /\ sublist (marker "data-seo-setting" <$> first)
                    (Some ∘ CustomScript.key <$> body_start sc)
         /\ sublist (marker "data-seo-setting" <$> last)
                    (Some ∘ CustomScript.key <$> body_end sc).
Proof.
  cbv zeta. eexists _, _. split; [reflexivity|].
  apply (body_items_order parseHTML_fixture
           (mkScripts [] [] [banner; tracker] [chat_widget]) empty_document).
  reflexivity.
Defined.

(** The verification item is moved into the head. *)
Lemma head_effect_registers_elements_witness :
  let sc := mkScripts [verification] [] [] [] in
  exists doc' created,
    head_effect parseHTML_fixture false (Some sc) empty_document = Some (doc', created)
    /\ exists moved,
         head doc' = head empty_document ++ moved
         /\ created = List.filter is_element moved
         /\ body doc' = body empty_document
         /\ Forall (fun n => is_element n = true ->
                             exists s, s ∈ head_start sc ++ head_end sc
                                       /\ marker "data-head-setting" n
                                          = Some (CustomScript.key s))
                   moved.
Proof.
  cbv zeta. eexists _, _. split; [reflexivity|].
  apply (head_effect_registers_elements parseHTML_fixture
           (mkScripts [verification] [] [] []) empty_document).
  reflexivity.
Defined.
